(** * The video catalogue module ([src/module/video.js])

    A shallow embedding of the [Video] class: the [videos] table behind the
    knex query builder is a list of rows, every method is a function on the
    world (table, auto-increment counter, metadata linker) that returns an
    outcome (a value or a thrown JavaScript error) and the next world.

    The first part embeds, on integers and code units up to U+00FF, the
    JSON text codec the module stores its two structured columns with
    ([JSON.stringify] on insert, [JSON.parse] on read, [JSON_EXTRACT] in
    the duplicate check). *)

From Stdlib Require Import List String Ascii ZArith NArith Lia Bool Arith.
From Stdlib Require Import Permutation Sorted.
From Stdlib Require DecimalN DecimalPos DecimalFacts.
Import ListNotations.

Local Open Scope list_scope.
Set Warnings "-register-all".

(** ** JSON data *)

Module Json.

(** A JSON value as [JSON.parse] builds it.  Numbers are the integers (a
    double that holds a fraction has no place in this embedding); a string is
    a sequence of code units U+0000..U+00FF; an object is the list of its own
    enumerable properties in the order they are written and enumerated (the
    engine's rule that moves integer-like keys to the front is not
    embedded). *)
Inductive JSON : Type :=
| JNull
| JBool (b : bool)
| JNum (z : Z)
| JStr (s : string)
| JArr (elements : list JSON)
| JObj (members : list (string * JSON)).

(** Induction that reaches inside arrays and objects. *)
Section JSON_induction.
Variable P : JSON -> Prop.
Hypothesis Hnull : P JNull.
Hypothesis Hbool : forall b, P (JBool b).
Hypothesis Hnum : forall z, P (JNum z).
Hypothesis Hstr : forall s, P (JStr s).
Hypothesis Harr : forall l, Forall P l -> P (JArr l).
Hypothesis Hobj : forall l, Forall (fun kv => P (snd kv)) l -> P (JObj l).

Fixpoint JSON_nested_ind (v : JSON) : P v :=
  match v with
  | JNull => Hnull
  | JBool b => Hbool b
  | JNum z => Hnum z
  | JStr s => Hstr s
  | JArr l =>
      Harr l ((fix go (l : list JSON) : Forall P l :=
                 match l with
                 | [] => Forall_nil P
                 | x :: r => Forall_cons x (JSON_nested_ind x) (go r)
                 end) l)
  | JObj l =>
      Hobj l ((fix go (l : list (string * JSON))
                : Forall (fun kv => P (snd kv)) l :=
                 match l with
                 | [] => Forall_nil _
                 | kv :: r =>
                     Forall_cons kv (JSON_nested_ind (snd kv)) (go r)
                 end) l)
  end.
End JSON_induction.

(** Property access [o.k]: [None] is JavaScript's [undefined]. *)
Fixpoint assoc (k : string) (l : list (string * JSON)) : option JSON :=
  match l with
  | [] => None
  | (k', v) :: r => if String.eqb k k' then Some v else assoc k r
  end.

(** Defining a property on an object under construction: an existing key
    keeps its place and takes the new value, a new key goes last. *)
Fixpoint define_property (k : string) (v : JSON) (l : list (string * JSON))
  : list (string * JSON) :=
  match l with
  | [] => [(k, v)]
  | (k', v') :: r =>
      if String.eqb k k' then (k', v) :: r
      else (k', v') :: define_property k v r
  end.

Definition build_object (l : list (string * JSON)) : list (string * JSON) :=
  fold_left (fun acc kv => define_property (fst kv) (snd kv) acc) l [].

(** *** Text *)

Definition text := list ascii.

Definition code (c : ascii) : N := N_of_ascii c.

(** The double quote, U+0022. *)
Definition dquote : ascii := Eval cbv in ascii_of_N 34.

Definition is_ws (c : ascii) : bool :=
  (code c =? 32)%N || (code c =? 9)%N || (code c =? 10)%N || (code c =? 13)%N.

Fixpoint skip_ws (s : text) : text :=
  match s with
  | c :: r => if is_ws c then skip_ws r else s
  | [] => []
  end.

Definition is_digit (c : ascii) : bool :=
  (48 <=? code c)%N && (code c <=? 57)%N.

(** *** Numbers: decimal integers *)

Fixpoint chars_of_uint (d : Decimal.uint) : text :=
  match d with
  | Decimal.Nil => []
  | Decimal.D0 r => "0"%char :: chars_of_uint r
  | Decimal.D1 r => "1"%char :: chars_of_uint r
  | Decimal.D2 r => "2"%char :: chars_of_uint r
  | Decimal.D3 r => "3"%char :: chars_of_uint r
  | Decimal.D4 r => "4"%char :: chars_of_uint r
  | Decimal.D5 r => "5"%char :: chars_of_uint r
  | Decimal.D6 r => "6"%char :: chars_of_uint r
  | Decimal.D7 r => "7"%char :: chars_of_uint r
  | Decimal.D8 r => "8"%char :: chars_of_uint r
  | Decimal.D9 r => "9"%char :: chars_of_uint r
  end.

Definition print_N (n : N) : text := chars_of_uint (N.to_uint n).

Definition print_Z (z : Z) : text :=
  match z with
  | Zneg p => "-"%char :: print_N (Npos p)
  | _ => print_N (Z.to_N z)
  end.

(** Reads the longest run of digits. *)
Fixpoint read_digits (s : text) : Decimal.uint * text :=
  match s with
  | c :: r =>
      let k (f : Decimal.uint -> Decimal.uint) :=
        let '(d, r') := read_digits r in (f d, r') in
      match code c with
      | 48%N => k Decimal.D0
      | 49%N => k Decimal.D1
      | 50%N => k Decimal.D2
      | 51%N => k Decimal.D3
      | 52%N => k Decimal.D4
      | 53%N => k Decimal.D5
      | 54%N => k Decimal.D6
      | 55%N => k Decimal.D7
      | 56%N => k Decimal.D8
      | 57%N => k Decimal.D9
      | _ => (Decimal.Nil, s)
      end
  | [] => (Decimal.Nil, [])
  end.

(** What may follow the integer part where this embedding stops: a fraction
    or an exponent starts a number that is no integer. *)
Definition starts_fraction (s : text) : bool :=
  match s with
  | c :: _ => (code c =? 46)%N || (code c =? 101)%N || (code c =? 69)%N
  | [] => false
  end.

(** The JSON grammar's integer: [0], or a digit 1-9 followed by digits. *)
Definition parse_N (s : text) : option (N * text) :=
  match s with
  | c :: r =>
      if (code c =? 48)%N then
        if starts_fraction r then None else Some (0%N, r)
      else if is_digit c then
        let '(d, r') := read_digits s in
        if starts_fraction r' then None else Some (N.of_uint d, r')
      else None
  | [] => None
  end.

Definition parse_Z (s : text) : option (Z * text) :=
  match s with
  | c :: r =>
      if (code c =? 45)%N then
        match parse_N r with
        | Some (n, r') => Some (Z.opp (Z.of_N n), r')
        | None => None
        end
      else
        match parse_N s with
        | Some (n, r') => Some (Z.of_N n, r')
        | None => None
        end
  | [] => None
  end.

(** *** Strings: [QuoteJSONString] and its inverse *)

Definition hex_char (n : N) : ascii :=
  if (n <? 10)%N then ascii_of_N (48 + n) else ascii_of_N (87 + n).

Definition hex_value (c : ascii) : option N :=
  let n := code c in
  if (48 <=? n)%N && (n <=? 57)%N then Some (n - 48)%N
  else if (97 <=? n)%N && (n <=? 102)%N then Some (n - 87)%N
  else if (65 <=? n)%N && (n <=? 70)%N then Some (n - 55)%N
  else None.

(** One code unit inside the quotes: the two-character escapes, [\u00xx]
    for the other control characters, the character itself otherwise. *)
Definition escape_char (c : ascii) : text :=
  let n := code c in
  if (n =? 34)%N then ["\"%char; dquote]
  else if (n =? 92)%N then ["\"%char; "\"%char]
  else if (n =? 8)%N then ["\"%char; "b"%char]
  else if (n =? 9)%N then ["\"%char; "t"%char]
  else if (n =? 10)%N then ["\"%char; "n"%char]
  else if (n =? 12)%N then ["\"%char; "f"%char]
  else if (n =? 13)%N then ["\"%char; "r"%char]
  else if (n <? 32)%N then
    ["\"%char; "u"%char; "0"%char; "0"%char;
     hex_char (n / 16); hex_char (n mod 16)]
  else [c].

Definition quote (s : text) : text :=
  dquote :: flat_map escape_char s ++ [dquote].

Definition simple_escape (e : ascii) : option ascii :=
  let n := code e in
  if (n =? 34)%N then Some dquote
  else if (n =? 92)%N then Some "\"%char
  else if (n =? 47)%N then Some "/"%char
  else if (n =? 98)%N then Some (ascii_of_N 8)
  else if (n =? 116)%N then Some (ascii_of_N 9)
  else if (n =? 110)%N then Some (ascii_of_N 10)
  else if (n =? 102)%N then Some (ascii_of_N 12)
  else if (n =? 114)%N then Some (ascii_of_N 13)
  else None.

(** [\uXXXX]: a code unit above U+00FF is outside the embedded strings. *)
Definition unicode_escape (a b c d : ascii) : option ascii :=
  match hex_value a, hex_value b, hex_value c, hex_value d with
  | Some 0%N, Some 0%N, Some h, Some l => Some (ascii_of_N (16 * h + l))
  | _, _, _, _ => None
  end.

Definition cons_char (c : ascii) (p : option (text * text))
  : option (text * text) :=
  match p with
  | Some (s, r) => Some (c :: s, r)
  | None => None
  end.

(** The characters of a string after its opening quote, up to and including
    the closing quote. *)
Fixpoint parse_chars (s : text) : option (text * text) :=
  match s with
  | [] => None
  | c :: r =>
      if (code c =? 34)%N then Some ([], r)
      else if (code c =? 92)%N then
        match r with
        | [] => None
        | e :: r1 =>
            if (code e =? 117)%N then
              match r1 with
              | h1 :: h2 :: h3 :: h4 :: r2 =>
                  match unicode_escape h1 h2 h3 h4 with
                  | Some c' => cons_char c' (parse_chars r2)
                  | None => None
                  end
              | _ => None
              end
            else
              match simple_escape e with
              | Some c' => cons_char c' (parse_chars r1)
              | None => None
              end
        end
      else if (code c <? 32)%N then None
      else cons_char c (parse_chars r)
  end.

Definition parse_quoted (s : text) : option (string * text) :=
  match s with
  | c :: r =>
      if (code c =? 34)%N then
        match parse_chars r with
        | Some (cs, r') => Some (string_of_list_ascii cs, r')
        | None => None
        end
      else None
  | [] => None
  end.

(** *** [JSON.stringify] (no indentation) *)

Definition print_key (k : string) : text :=
  quote (list_ascii_of_string k) ++ [":"%char].

Fixpoint print (v : JSON) : text :=
  match v with
  | JNull => list_ascii_of_string "null"
  | JBool true => list_ascii_of_string "true"
  | JBool false => list_ascii_of_string "false"
  | JNum z => print_Z z
  | JStr s => quote (list_ascii_of_string s)
  | JArr l =>
      "["%char ::
      match l with
      | [] => ["]"%char]
      | x :: r =>
          print x ++
          (fix more (r : list JSON) : text :=
             match r with
             | [] => ["]"%char]
             | y :: r' => ","%char :: print y ++ more r'
             end) r
      end
  | JObj l =>
      "{"%char ::
      match l with
      | [] => ["}"%char]
      | (k, x) :: r =>
          print_key k ++ print x ++
          (fix more (r : list (string * JSON)) : text :=
             match r with
             | [] => ["}"%char]
             | (k', y) :: r' => ","%char :: print_key k' ++ print y ++ more r'
             end) r
      end
  end.

Definition JSON_stringify (v : JSON) : string :=
  string_of_list_ascii (print v).

(** *** [JSON.parse] *)

Fixpoint expect (lit s : text) : option text :=
  match lit, s with
  | [], _ => Some s
  | a :: lit', c :: r => if Ascii.eqb a c then expect lit' r else None
  | _ :: _, [] => None
  end.

Section Parse.
(** The parser of one value, one nesting level down. *)
Variable parse_inner : text -> option (JSON * text).

(** After an element of an array: [,] and one more element, or []]. *)
Fixpoint parse_elements (n : nat) (s : text) : option (list JSON * text) :=
  match n with
  | O => None
  | S n' =>
      match skip_ws s with
      | c :: r =>
          if (code c =? 93)%N then Some ([], r)
          else if (code c =? 44)%N then
            match parse_inner r with
            | Some (x, r1) =>
                match parse_elements n' r1 with
                | Some (xs, r2) => Some (x :: xs, r2)
                | None => None
                end
            | None => None
            end
          else None
      | [] => None
      end
  end.

(** One member of an object: a quoted key, [:], a value. *)
Definition parse_member (s : text) : option ((string * JSON) * text) :=
  match parse_quoted (skip_ws s) with
  | Some (k, r) =>
      match skip_ws r with
      | c :: r1 =>
          if (code c =? 58)%N then
            match parse_inner r1 with
            | Some (x, r2) => Some ((k, x), r2)
            | None => None
            end
          else None
      | [] => None
      end
  | None => None
  end.

Fixpoint parse_members (n : nat) (s : text)
  : option (list (string * JSON) * text) :=
  match n with
  | O => None
  | S n' =>
      match skip_ws s with
      | c :: r =>
          if (code c =? 125)%N then Some ([], r)
          else if (code c =? 44)%N then
            match parse_member r with
            | Some (kx, r1) =>
                match parse_members n' r1 with
                | Some (kxs, r2) => Some (kx :: kxs, r2)
                | None => None
                end
            | None => None
            end
          else None
      | [] => None
      end
  end.
End Parse.

(** One value; [depth] bounds the nesting, and the loops over elements and
    members run at most once per remaining character. *)
Fixpoint parse_value (depth : nat) (s : text) : option (JSON * text) :=
  match depth with
  | O => None
  | S d =>
      match skip_ws s with
      | [] => None
      | c :: r =>
          if (code c =? 110)%N then
            option_map (pair JNull) (expect (list_ascii_of_string "ull") r)
          else if (code c =? 116)%N then
            option_map (pair (JBool true))
                       (expect (list_ascii_of_string "rue") r)
          else if (code c =? 102)%N then
            option_map (pair (JBool false))
                       (expect (list_ascii_of_string "alse") r)
          else if (code c =? 34)%N then
            match parse_quoted (c :: r) with
            | Some (str, r') => Some (JStr str, r')
            | None => None
            end
          else if (code c =? 91)%N then
            match skip_ws r with
            | c' :: r' =>
                if (code c' =? 93)%N then Some (JArr [], r')
                else
                  match parse_value d (c' :: r') with
                  | Some (x, r1) =>
                      match parse_elements (parse_value d) (List.length r1) r1 with
                      | Some (xs, r2) => Some (JArr (x :: xs), r2)
                      | None => None
                      end
                  | None => None
                  end
            | [] => None
            end
          else if (code c =? 123)%N then
            match skip_ws r with
            | c' :: r' =>
                if (code c' =? 125)%N then Some (JObj [], r')
                else
                  match parse_member (parse_value d) (c' :: r') with
                  | Some (kx, r1) =>
                      match parse_members (parse_value d) (List.length r1) r1 with
                      | Some (kxs, r2) =>
                          Some (JObj (build_object (kx :: kxs)), r2)
                      | None => None
                      end
                  | None => None
                  end
            | [] => None
            end
          else
            match parse_Z (c :: r) with
            | Some (z, r') => Some (JNum z, r')
            | None => None
            end
      end
  end.

(** [JSON.parse]: one value and nothing but white space after it; [None] is
    the [SyntaxError] it throws. *)
Definition JSON_parse (s : string) : option JSON :=
  let t := list_ascii_of_string s in
  match parse_value (List.length t) t with
  | Some (v, r) =>
      match skip_ws r with
      | [] => Some v
      | _ :: _ => None
      end
  | None => None
  end.

(** The continuation of an array after its first element, and of an object
    after its first member, as [print] writes them. *)
Fixpoint print_elements (r : list JSON) : text :=
  match r with
  | [] => ["]"%char]
  | y :: r' => ","%char :: print y ++ print_elements r'
  end.

Fixpoint print_members (r : list (string * JSON)) : text :=
  match r with
  | [] => ["}"%char]
  | (k, y) :: r' => ","%char :: print_key k ++ print y ++ print_members r'
  end.

(** *** The values JavaScript can hold *)

Fixpoint distinct (keys : list string) : bool :=
  match keys with
  | [] => true
  | k :: r => negb (existsb (String.eqb k) r) && distinct r
  end.

(** [json_ok v]: every number is a safe integer (below 2^53 in magnitude, so
    that the double holds it exactly and prints it in plain decimal) and no
    object has two properties of one name. *)
Fixpoint json_ok (v : JSON) : bool :=
  match v with
  | JNum z => (Z.abs z <? 2 ^ 53)%Z
  | JArr l => forallb json_ok l
  | JObj l =>
      distinct (map fst l)
      && forallb (fun kv => match kv with (_, x) => json_ok x end) l
  | _ => true
  end.

Fixpoint nesting (v : JSON) : nat :=
  match v with
  | JArr l => S (fold_right (fun x n => Nat.max (nesting x) n) 0%nat l)
  | JObj l =>
      S (fold_right
           (fun kv n => Nat.max (match kv with (_, x) => nesting x end) n)
           0%nat l)
  | _ => 1%nat
  end.

(** What may follow a value in a text: nothing, or a character that neither
    continues a number nor starts a fraction. *)
(** The first character of a value is no white space and closes nothing. *)
Definition starts_value (c : ascii) : bool :=
  negb (is_ws c) && negb (code c =? 93)%N && negb (code c =? 125)%N.

Definition value_end (rest : text) : bool :=
  match rest with
  | [] => true
  | c :: _ => negb (is_digit c) && negb (starts_fraction rest)
  end.

(** A parser of one value reads back what [print] wrote for [y]. *)
Definition reads_back (pv : text -> option (JSON * text)) (y : JSON) : Prop :=
  forall rest,
    value_end rest = true -> pv (print y ++ rest)%list = Some (y, rest).

End Json.

Import Json.
Local Open Scope string_scope.
Local Open Scope Z_scope.

(** ** JavaScript values at the module's boundary *)

Inductive JSError : Type :=
| ReferenceError (identifier : string)
| SyntaxError
| UndefinedBinding
| MalformedDocument.

Inductive Outcome (A : Type) : Type :=
| Returned (a : A)
| Thrown (e : JSError).
Arguments Returned {A} a.
Arguments Thrown {A} e.

(** [ToString], as string concatenation with [+] applies it to an operand;
    [None] is [undefined].  An array joins its elements with commas, [null]
    and [undefined] elements giving the empty string. *)
Fixpoint to_string (v : JSON) : string :=
  match v with
  | JNull => "null"
  | JBool true => "true"
  | JBool false => "false"
  | JNum z => string_of_list_ascii (print_Z z)
  | JStr s => s
  | JArr l =>
      let element (x : JSON) : string :=
        match x with JNull => EmptyString | _ => to_string x end in
      match l with
      | [] => EmptyString
      | x :: r =>
          element x ++
          (fix more (r : list JSON) : string :=
             match r with
             | [] => EmptyString
             | y :: r' => "," ++ element y ++ more r'
             end) r
      end
  | JObj _ => "[object Object]"
  end.

Definition to_string_operand (v : option JSON) : string :=
  match v with
  | Some x => to_string x
  | None => "undefined"
  end.

(** Truthiness of the values the module tests. *)
Definition truthy_number (z : Z) : bool := negb (z =? 0).
Definition truthy_array {A : Type} (a : list A) : bool := true.

(** ** The [videos] table *)

Module Row.
Record t : Type := mk {
  id : Z;
  metadataId : Z;
  videoFileId : Z;
  isHiden : Z;
  infoFileId : Z;
  videoMetadata : string;
  storyboardFileIdSet : string;
  updateTime : Z
}.

Definition set_isHiden (v : Z) (r : t) : t :=
  mk (id r) (metadataId r) (videoFileId r) v (infoFileId r)
     (videoMetadata r) (storyboardFileIdSet r) (updateTime r).
End Row.

(** The object [getVideoInfo] and [getVideoList] hand to their caller. *)
Module VideoInfo.
Record t : Type := mk {
  id : Z;
  metadataId : Z;
  videoFileId : Z;
  isHiden : bool;
  infoFileId : Z;
  videoMetadata : JSON;
  storyboardFileIdSet : JSON;
  updateTime : Z
}.
End VideoInfo.

(** The [fileIds] argument of [createVideo]. *)
Module FileIds.
Record t : Type := mk {
  metaId : Z;
  videoId : Z;
  storyboardId : JSON
}.
End FileIds.

(** What the module requires and is not among the sources: the metadata
    module ([./metadata]), whose [getMetadataId] resolves or creates the
    metadata entity of an identity key and answers its id, or 0; and the
    storage backend's comparison of a [JSON_EXTRACT] result with a bound
    parameter. *)
Class Collaborators : Type := {
  linker_state : Type;
  getMetadataId : string -> linker_state -> Z * linker_state;
  sql_equal : JSON -> JSON -> bool
}.

Section Video.
Context {collaborators : Collaborators}.

(** The table in storage order, the next auto-increment value, the metadata
    module's state and the identity keys it has been asked to resolve. *)
Record World : Type := mkWorld {
  videos : list Row.t;
  nextId : Z;
  linker : linker_state;
  linkerCalls : list string
}.

Definition set_videos (rows : list Row.t) (w : World) : World :=
  mkWorld rows (nextId w) (linker w) (linkerCalls w).

(** *** The query builder

    [db] is the knex instance that [./database] configures; its builder
    methods are given the meaning of the SQL they compile to, on the list
    of rows. *)

(** [.where(column, value)] *)
Definition where_ (column : Row.t -> Z) (value : Z) (rows : list Row.t)
  : list Row.t :=
  filter (fun r => column r =? value) rows.

(** [.orderBy('id', 'desc')]: insertion sort on the id column. *)
Fixpoint insert_desc (r : Row.t) (sorted : list Row.t) : list Row.t :=
  match sorted with
  | [] => [r]
  | x :: rest =>
      if Row.id x <=? Row.id r then r :: sorted
      else x :: insert_desc r rest
  end.

Definition orderBy_id_desc (rows : list Row.t) : list Row.t :=
  fold_right insert_desc [] rows.

(** Modelled from the spec: [.paginate({ perPage, currentPage })] comes from
    the [./database] module, which is not among the sources.  The spec's
    windowing: skip [(page-1)*size] records and return up to [size] of the
    remainder, as [result.data]. *)
Definition paginate (perPage currentPage : Z) (rows : list Row.t)
  : list Row.t :=
  firstn (Z.to_nat perPage)
         (skipn (Z.to_nat ((currentPage - 1) * perPage)) rows).

(** [.update('isHiden', v)] on the rows a predicate selects: the new table
    and the number of rows matched. *)
Definition update_isHiden (sel : Row.t -> bool) (v : Z) (rows : list Row.t)
  : list Row.t * Z :=
  (map (fun r => if sel r then Row.set_isHiden v r else r) rows,
   Z.of_nat (List.length (filter sel rows))).

(** [JSON_EXTRACT(videoMetadata, '$.hash')]: [None] is SQL's NULL. *)
Definition json_extract_hash (r : Row.t) : Outcome (option JSON) :=
  match JSON_parse (Row.videoMetadata r) with
  | Some (JObj members) => Returned (assoc "hash" members)
  | Some _ => Returned None
  | None => Thrown MalformedDocument
  end.

(** The raw condition [JSON_EXTRACT(videoMetadata, '$.hash') = ?] on a row. *)
Definition hash_condition (bound : JSON) (r : Row.t) : Outcome bool :=
  match json_extract_hash r with
  | Returned (Some v) => Returned (sql_equal v bound)
  | Returned None => Returned false
  | Thrown e => Thrown e
  end.

(** [.whereRaw(condition, hash).select('id').first()] *)
Fixpoint first_by_hash (bound : JSON) (rows : list Row.t)
  : Outcome (option Row.t) :=
  match rows with
  | [] => Returned None
  | r :: rest =>
      match hash_condition bound r with
      | Returned true => Returned (Some r)
      | Returned false => first_by_hash bound rest
      | Thrown e => Thrown e
      end
  end.

(** [.whereRaw(condition, hash).count()] *)
Fixpoint count_by_hash (bound : JSON) (rows : list Row.t) : Outcome Z :=
  match rows with
  | [] => Returned 0
  | r :: rest =>
      match hash_condition bound r, count_by_hash bound rest with
      | Returned b, Returned n => Returned (if b then n + 1 else n)
      | Thrown e, _ => Thrown e
      | _, Thrown e => Thrown e
      end
  end.

(** *** The methods of [Video] *)

(** The shape both readers build from a row; [JSON.parse] throws on a text
    that is no JSON. *)
Definition present (item : Row.t) : Outcome VideoInfo.t :=
  match JSON_parse (Row.videoMetadata item) with
  | None => Thrown SyntaxError
  | Some meta =>
      match JSON_parse (Row.storyboardFileIdSet item) with
      | None => Thrown SyntaxError
      | Some storyboard =>
          Returned (VideoInfo.mk (Row.id item) (Row.metadataId item)
                                 (Row.videoFileId item)
                                 (Row.isHiden item =? 1)
                                 (Row.infoFileId item)
                                 meta storyboard (Row.updateTime item))
      end
  end.

(** The identifiers in scope where [getVideoInfo] builds its result: its
    parameter, its local constant and the module's top-level bindings (the
    runtime has no global of the name [item] either). *)
Definition getVideoInfo_scope : list string :=
  ["id"; "result"; "db"; "logger"; "metadata"; "Video"].

Definition in_scope (x : string) (scope : list string) : bool :=
  existsb (String.eqb x) scope.

(** [getVideoInfo (id)].  The query is awaited without [.first()], so
    [result] is an array: [!result] is false, [result.id] and the other
    columns are [undefined], and the fourth property of the literal reads
    [item.isHiden] where no [item] is bound. *)
Definition getVideoInfo (w : World) (id : Z) : Outcome (option VideoInfo.t) :=
  let result := where_ Row.id id (videos w) in
  if negb (truthy_array result) then Returned None
  else if in_scope "item" getVideoInfo_scope
       then Thrown SyntaxError (* JSON.parse(undefined) *)
       else Thrown (ReferenceError "item").

(** The [for (const i in result)] loop: the first row that fails to parse
    ends the call. *)
Fixpoint process (result : list Row.t) : Outcome (list VideoInfo.t) :=
  match result with
  | [] => Returned []
  | item :: rest =>
      match present item with
      | Thrown e => Thrown e
      | Returned v =>
          match process rest with
          | Thrown e => Thrown e
          | Returned vs => Returned (v :: vs)
          end
      end
  end.

(** The rows [getVideoList] pages over. *)
Definition eligible (showHiden : bool) (metadataId : Z) (rows : list Row.t)
  : list Row.t :=
  let result := rows in
  let result := if negb showHiden then where_ Row.isHiden 0 result
                else result in
  let result := if negb (metadataId =? 0)
                then where_ Row.metadataId metadataId result
                else result in
  orderBy_id_desc result.

Definition getVideoList (w : World) (page size : Z) (showHiden : bool)
           (metadataId : Z) : Outcome (list VideoInfo.t) :=
  let result := paginate size page (eligible showHiden metadataId (videos w)) in
  if negb (truthy_array result) then Returned []
  else process result.

Definition hideVideo (w : World) (id : Z) : bool * World :=
  let '(rows, matched) :=
    update_isHiden (fun r => Row.id r =? id) 1 (videos w) in
  (truthy_number matched, set_videos rows w).

Definition unhideVideo (w : World) (id : Z) : bool * World :=
  let '(rows, matched) :=
    update_isHiden (fun r => Row.id r =? id) 0 (videos w) in
  (truthy_number matched, set_videos rows w).

(** [createVideo (info, fileIds)]; [now] is what [(new Date()).getTime()]
    reads, [Returned None] is the bare [return] (undefined). *)
Definition JAVID (info : list (string * JSON)) : string :=
  to_string_operand (assoc "company" info) ++ "-"
  ++ to_string_operand (assoc "id" info).

(** The row [createVideo] inserts, with the id the table assigns to it. *)
Definition inserted_row (id metaId : Z) (info : list (string * JSON))
           (fileIds : FileIds.t) (now : Z) : Row.t :=
  Row.mk id metaId (FileIds.videoId fileIds) 0 (FileIds.metaId fileIds)
         (JSON_stringify (JObj info))
         (JSON_stringify (FileIds.storyboardId fileIds))
         now.

Definition createVideo (w : World) (info : list (string * JSON))
           (fileIds : FileIds.t) (now : Z) : Outcome (option Z) * World :=
  let JAVID := JAVID info in
  match assoc "hash" info with
  | None => (Thrown UndefinedBinding, w)
  | Some hash =>
      match first_by_hash hash (videos w) with
      | Thrown e => (Thrown e, w)
      | Returned result =>
          let duplicate :=
            match result with
            | Some r => if truthy_number (Row.id r) then Some (Row.id r)
                        else None
            | None => None
            end in
          match duplicate with
          | Some existing => (Returned (Some existing), w)
          | None =>
              let '(metaId, linker') := getMetadataId JAVID (linker w) in
              let w1 := mkWorld (videos w) (nextId w) linker'
                                (linkerCalls w ++ [JAVID]) in
              if metaId =? 0 then (Returned None, w1)
              else
                let row := inserted_row (nextId w1) metaId info fileIds now in
                (Returned (Some (Row.id row)),
                 mkWorld (videos w1 ++ [row]) (nextId w1 + 1)
                         (linker w1) (linkerCalls w1))
          end
      end
  end.

Definition isExistByHash (w : World) (hash : option JSON) : Outcome bool :=
  match hash with
  | None => Thrown UndefinedBinding
  | Some bound =>
      match count_by_hash bound (videos w) with
      | Thrown e => Thrown e
      | Returned n => Returned (negb (n =? 0))
      end
  end.

Definition getVideoIdByInfoFileId (w : World) (infoFileId : Z) : Z :=
  match where_ Row.infoFileId infoFileId (videos w) with
  | r :: _ => if truthy_number (Row.id r) then Row.id r else 0
  | [] => 0
  end.

(** *** Vocabulary of the properties *)

(** The table as it is created: no rows, auto-increment at 1. *)
Definition empty_world (l : linker_state) : World := mkWorld [] 1 l [].

Definition is_object (o : option JSON) : bool :=
  match o with
  | Some (JObj _) => true
  | _ => false
  end.

Definition is_value (o : option JSON) : bool :=
  match o with
  | Some _ => true
  | None => false
  end.

Fixpoint distinct_ids (ids : list Z) : bool :=
  match ids with
  | [] => true
  | i :: r => negb (existsb (Z.eqb i) r) && distinct_ids r
  end.

(** What every row written by [createVideo] and touched by [hideVideo] and
    [unhideVideo] satisfies: an id the table has assigned, a 0/1 flag, a
    JSON object in [videoMetadata] and JSON in [storyboardFileIdSet]. *)
Definition row_ok (next : Z) (r : Row.t) : bool :=
  (0 <? Row.id r) && (Row.id r <? next)
  && ((Row.isHiden r =? 0) || (Row.isHiden r =? 1))
  && is_object (JSON_parse (Row.videoMetadata r))
  && is_value (JSON_parse (Row.storyboardFileIdSet r)).

Definition store_ok (w : World) : bool :=
  (0 <? nextId w)
  && forallb (row_ok (nextId w)) (videos w)
  && distinct_ids (map Row.id (videos w)).

(** The duplicate check's condition holds on a row. *)
Definition hash_matches (bound : JSON) (r : Row.t) : bool :=
  match hash_condition bound r with
  | Returned true => true
  | _ => false
  end.

(** The spec's words for the filter of a listing: hidden rows only when
    asked for, and only the rows of the metadata id when one is given. *)
Definition is_eligible (includeHidden : bool) (metadataFilter : Z)
           (r : Row.t) : bool :=
  (includeHidden || (Row.isHiden r =? 0))
  && ((metadataFilter =? 0) || (Row.metadataId r =? metadataFilter)).

Definition ids_of (result : Outcome (list VideoInfo.t)) : list Z :=
  match result with
  | Returned vs => map VideoInfo.id vs
  | Thrown _ => []
  end.

(** Pages 1..k of a listing, one after the other. *)
Definition pages_upto (w : World) (k : nat) (size : Z) (showHiden : bool)
           (metadataId : Z) : list (Outcome (list VideoInfo.t)) :=
  map (fun p => getVideoList w (Z.of_nat p) size showHiden metadataId)
      (seq 1 k).

(** Sequences of visibility operations. *)
Inductive VisibilityOp : Type :=
| Hide (id : Z)
| Unhide (id : Z).

Definition apply_op (w : World) (op : VisibilityOp) : World :=
  match op with
  | Hide id => snd (hideVideo w id)
  | Unhide id => snd (unhideVideo w id)
  end.

Definition run_ops (ops : list VisibilityOp) (w : World) : World :=
  fold_left apply_op ops w.

(** Two rows that agree on every column but [isHiden]. *)
Definition same_but_isHiden (r r' : Row.t) : Prop :=
  Row.id r' = Row.id r /\
  Row.metadataId r' = Row.metadataId r /\
  Row.videoFileId r' = Row.videoFileId r /\
  Row.infoFileId r' = Row.infoFileId r /\
  Row.storyboardFileIdSet r' = Row.storyboardFileIdSet r /\
  Row.videoMetadata r' = Row.videoMetadata r /\
  Row.updateTime r' = Row.updateTime r.

(** The worlds the module reaches from the empty table, given JSON data. *)
Inductive reachable : World -> Prop :=
| reach_empty (l : linker_state) : reachable (empty_world l)
| reach_create (w : World) (info : list (string * JSON))
               (fileIds : FileIds.t) (now : Z) :
    reachable w ->
    json_ok (JObj info) = true ->
    json_ok (FileIds.storyboardId fileIds) = true ->
    reachable (snd (createVideo w info fileIds now))
| reach_visibility (w : World) (op : VisibilityOp) :
    reachable w -> reachable (apply_op w op).

End Video.

(** A string between double quotes, to write JSON texts with. *)
Definition dq (s : string) : string :=
  String dquote (s ++ String dquote EmptyString).

(** *** Sample collaborators

    A metadata module that numbers the keys it is given from 1 and refuses
    (returns 0 for) the key of an item with neither company nor id, and a
    backend that compares strings with strings and numbers with numbers. *)
Definition sample_getMetadataId (key : string) (known : list string)
  : Z * list string :=
  if String.eqb key "undefined-undefined" then (0, known)
  else
    (fix find (l : list string) (n : Z) : Z * list string :=
       match l with
       | [] => (n, (known ++ [key])%list)
       | k :: r => if String.eqb k key then (n, known) else find r (n + 1)
       end) known 1.

Definition sample_sql_equal (a b : JSON) : bool :=
  match a, b with
  | JStr x, JStr y => String.eqb x y
  | JNum x, JNum y => x =? y
  | _, _ => false
  end.

Definition sample : Collaborators :=
  Build_Collaborators (list string) sample_getMetadataId sample_sql_equal.

Definition sample_info (company id hash : string) : list (string * JSON) :=
  [("company", JStr company); ("id", JStr id); ("hash", JStr hash);
   ("tags", JArr [JStr "a\b"; JArr []; JObj [];
                  JObj [("deep", JArr [JNull; JBool true; JNum (-7);
                                       JObj [("deeper", JArr [JArr []])]])]])].

Definition sample_files : FileIds.t :=
  FileIds.mk 11 12 (JArr [JNum 21; JNum 22]).

(** Three items created in turn at times 1000, 2000, 3000. *)
Definition sample_world : World (collaborators := sample) :=
  let w0 := empty_world (collaborators := sample) [] in
  let w1 := snd (createVideo w0 (sample_info "ABC" "001" "h1") sample_files
                             1000) in
  let w2 := snd (createVideo w1 (sample_info "ABC" "002" "h2") sample_files
                             2000) in
  snd (createVideo w2 (sample_info "XYZ" "003" "h3") sample_files 3000).



(** *** Further vocabulary *)

(** Both structured columns of a row are texts the embedded parser reads. *)
Definition decodable (r : Row.t) : bool :=
  is_value (JSON_parse (Row.videoMetadata r))
  && is_value (JSON_parse (Row.storyboardFileIdSet r)).

(** A character some JSON value starts with: a digit, the minus sign, the
    double quote, an opening bracket or brace, or the first letter of
    [null], [true] or [false]. *)
Definition opens_value (c : ascii) : bool :=
  let n := code c in
  is_digit c || (n =? 45)%N || (n =? 34)%N || (n =? 91)%N || (n =? 123)%N
  || (n =? 110)%N || (n =? 116)%N || (n =? 102)%N.

(** A text that is no JSON by its first character: nothing but white space,
    or a first character that opens no value. *)
Definition not_json (s : string) : bool :=
  match skip_ws (list_ascii_of_string s) with
  | [] => true
  | c :: _ => negb (opens_value c)
  end.

(** One of the structured columns of a row is such a text. *)
Definition damaged (r : Row.t) : bool :=
  not_json (Row.videoMetadata r) || not_json (Row.storyboardFileIdSet r).

(** The id a visibility operation addresses. *)
Definition target (op : VisibilityOp) : Z :=
  match op with
  | Hide id => id
  | Unhide id => id
  end.

Section Runs.
Context {collaborators : Collaborators}.

(** The calls that change the world, and runs of them. *)
Inductive Operation : Type :=
| Create (info : list (string * JSON)) (fileIds : FileIds.t) (now : Z)
| Visibility (op : VisibilityOp).

Definition step (w : World) (o : Operation) : World :=
  match o with
  | Create info fileIds now => snd (createVideo w info fileIds now)
  | Visibility op => apply_op w op
  end.

Definition run (ops : list Operation) (w : World) : World :=
  fold_left step ops w.

(** [createVideo] is given JSON data. *)
Definition operation_ok (o : Operation) : bool :=
  match o with
  | Create info fileIds _ =>
      json_ok (JObj info) && json_ok (FileIds.storyboardId fileIds)
  | Visibility _ => true
  end.

(** No row's hash satisfies the duplicate condition on a row stored before
    it. *)
Fixpoint hashes_distinct (rows : list Row.t) : bool :=
  match rows with
  | [] => true
  | r :: later =>
      forallb (fun r' =>
                 match json_extract_hash r' with
                 | Returned (Some h') => negb (hash_matches h' r)
                 | _ => true
                 end) later
      && hashes_distinct later
  end.

End Runs.

(** A table with a row whose [videoMetadata] is no JSON text, between two
    rows written by [createVideo]. *)
Definition damaged_world : World (collaborators := sample) :=
  let row (id : Z) (meta : string) :=
    Row.mk id 1 12 0 11 meta (JSON_stringify (JArr [])) 1000 in
  mkWorld (collaborators := sample)
          [row 1 (JSON_stringify (JObj [("hash", JStr "h1")]));
           row 2 "undefined";
           row 3 (JSON_stringify (JObj [("hash", JStr "h3")]))]
          4 [] [].

(** * The metadata routes ([src/api/route/metadata.js])

    The handlers read their route parameters, validate them and forward to
    the metadata module, which is not among the sources: its answers are a
    parameter and the calls made to it are recorded. *)

Module Route.

(** A number as [parseInt] gives it: an integer, or [None] for NaN.  The
    integer is the one the digits denote: below 2^53 in magnitude it is the
    engine's number, beyond it the engine holds the nearest double, on which
    the comparisons with 1 and 50 below come out the same. *)
Definition number : Type := option Z.

(** [a < b] and [a > b] with a constant on the right: false on NaN. *)
Definition lt (a : number) (b : Z) : bool :=
  match a with
  | Some x => x <? b
  | None => false
  end.

Definition gt (a : number) (b : Z) : bool :=
  match a with
  | Some x => x >? b
  | None => false
  end.

(** The white space [parseInt] skips, among the code units up to U+00FF:
    TAB, LF, VT, FF, CR, SP and NBSP. *)
Definition is_str_ws (c : ascii) : bool :=
  let n := code c in
  ((9 <=? n)%N && (n <=? 13)%N) || (n =? 32)%N || (n =? 160)%N.

Fixpoint trim_start (s : text) : text :=
  match s with
  | c :: r => if is_str_ws c then trim_start r else s
  | [] => []
  end.

(** The longest run of hexadecimal digits, most significant first; [acc] is
    the value read so far, [None] before the first digit. *)
Fixpoint read_hex (s : text) (acc : option N) : option N :=
  match s with
  | c :: r =>
      match hex_value c with
      | Some d =>
          read_hex r (Some (16 * match acc with Some a => a | None => 0 end
                            + d)%N)
      | None => acc
      end
  | [] => acc
  end.

Definition read_decimal (s : text) : option N :=
  match fst (read_digits s) with
  | Decimal.Nil => None
  | d => Some (N.of_uint d)
  end.

(** The digits after the sign: [0x] or [0X] announces radix 16. *)
Definition read_magnitude (s : text) : option N :=
  match s with
  | z :: x :: r =>
      if (code z =? 48)%N && ((code x =? 120)%N || (code x =? 88)%N)
      then read_hex r None
      else read_decimal s
  | _ => read_decimal s
  end.

(** [parseInt (input)] with no radix: white space, a sign, the prefix of
    radix 16, then the longest run of digits; NaN when there is none. *)
Definition parseInt (input : string) : number :=
  match trim_start (list_ascii_of_string input) with
  | c :: r =>
      if (code c =? 45)%N
      then option_map (fun n => - Z.of_N n) (read_magnitude r)
      else if (code c =? 43)%N
           then option_map Z.of_N (read_magnitude r)
           else option_map Z.of_N (read_magnitude (c :: r))
  | [] => None
  end.

(** [parseInt (param || fallback)]: an absent or empty parameter gives the
    fallback number, which [parseInt] turns into its decimal string. *)
Definition parse_param (param : option string) (fallback : Z) : number :=
  match param with
  | Some (String c r) => parseInt (String c r)
  | _ => parseInt (to_string (JNum fallback))
  end.

(** The calls the handlers make to the metadata module. *)
Inductive Call : Type :=
| getMetadataById (metadataId : number)
| getMetadataList (page size : number)
| getMetadataListByMetaId (type metaId : string) (page size : number).

(** The body of [res.json], over what the metadata module answers; [None]
    is the empty object of an error. *)
Module Response.
Record t (Data : Type) : Type := mk {
  code : Z;
  msg : string;
  data : option Data
}.
Arguments mk {Data} code msg data.
Arguments code {Data} t.
Arguments msg {Data} t.
Arguments data {Data} t.
End Response.

Section Handlers.
(** What the metadata module answers. *)
Variable Data : Type.
Variable answer : Call -> Data.

Definition Response : Type := Response.t Data.

Definition param_error : Response := Response.mk (-2) "Param error" None.

Definition success (call : Call) : Response * list Call :=
  (Response.mk 0 "Success" (Some (answer call)), [call]).

(** [router.get('/getInfo/:metadataId', ...)] *)
Definition getInfo (metadataId : option string) : Response * list Call :=
  let metadataId := parse_param metadataId 1 in
  if lt metadataId 1 then (param_error, [])
  else success (getMetadataById metadataId).

(** [router.get('/getList/:page?/:size?', ...)] *)
Definition getList (page size : option string) : Response * list Call :=
  let page := parse_param page 1 in
  let size := parse_param size 20 in
  if lt page 1 || lt size 1 || gt size 50 then (param_error, [])
  else success (getMetadataList page size).

(** [router.get('/getListByMeta/:type/:metaId/:page?/:size?', ...)] *)
Definition getListByMeta (type metaId : string) (page size : option string)
  : Response * list Call :=
  let page := parse_param page 1 in
  let size := parse_param size 20 in
  if lt page 1 || lt size 1 || gt size 50 then (param_error, [])
  else success (getMetadataListByMetaId type metaId page size).

End Handlers.

(** The decimal numeral of an integer, as a route parameter; [None] is the
    parameter left out. *)
Definition numeral (z : Z) : string := to_string (JNum z).

Definition given (fallback : Z) (param : option Z) : Z :=
  match param with
  | Some z => z
  | None => fallback
  end.

(** The integers a double holds exactly and [parseInt] therefore reads
    without rounding: those below 2^53 in magnitude. *)
Definition safe_integer (z : Z) : bool := Z.abs z <? 2 ^ 53.

Definition safe_param (param : option Z) : bool :=
  match param with
  | Some z => safe_integer z
  | None => true
  end.

End Route.

(** * Facts about the JSON codec *)

Example stringify_ex :
  JSON_stringify (JObj [("hash", JStr "h1"); ("id", JNum (-12));
                        ("tags", JArr [JStr "a\b"; JNull; JArr []; JObj []])])
  = ("{" ++ dq "hash" ++ ":" ++ dq "h1" ++ "," ++ dq "id" ++ ":-12,"
     ++ dq "tags" ++ ":[" ++ dq "a\\b" ++ ",null,[],{}]}")%string.
Proof. reflexivity. Qed.

Example parse_ex :
  JSON_parse (" { " ++ dq "hash" ++ " : " ++ dq "h1" ++ ", " ++ dq "id"
              ++ ":-12," ++ dq "tags" ++ ":[ " ++ dq "a\u0041\n"
              ++ " ,null,[],{}] } ")%string
  = Some (JObj [("hash", JStr "h1"); ("id", JNum (-12));
                ("tags", JArr [JStr (String "a" (String "A" (String
                                 (ascii_of_N 10) EmptyString)));
                               JNull; JArr []; JObj []])]).
Proof. vm_compute. reflexivity. Qed.

Example parse_dup :
  JSON_parse ("{" ++ dq "a" ++ ":1," ++ dq "b" ++ ":2," ++ dq "a" ++ ":3}")
  = Some (JObj [("a", JNum 3); ("b", JNum 2)]).
Proof. vm_compute. reflexivity. Qed.

Example parse_bad1 : JSON_parse "01" = None. Proof. reflexivity. Qed.
Example parse_bad2 : JSON_parse "[1,]" = None. Proof. reflexivity. Qed.
Example parse_bad3 : JSON_parse "1.5" = None. Proof. reflexivity. Qed.
Example parse_bad4 : JSON_parse EmptyString = None. Proof. reflexivity. Qed.
Example parse_ok5 : JSON_parse "[[[[0]]]]" = Some (JArr [JArr [JArr [JArr [JNum 0]]]]). Proof. reflexivity. Qed.

Example sample_world_ids :
  map Row.id (videos sample_world) = [1; 2; 3]
  /\ map Row.metadataId (videos sample_world) = [1; 2; 3]
  /\ store_ok sample_world = true.
Proof. vm_compute. auto. Qed.

Local Open Scope list_scope.

Section JsonFacts.

Lemma skip_ws_stop (c : ascii) (s : text) :
  is_ws c = false -> skip_ws (c :: s) = c :: s.
Proof. intros H. simpl. now rewrite H. Qed.

(** **** Strings *)

Lemma parse_chars_escape (c : ascii) (r : text) :
  parse_chars (escape_char c ++ r) = cons_char c (parse_chars r).
Proof.
  destruct c as [[] [] [] [] [] [] [] []]; reflexivity.
Qed.

Lemma parse_chars_escaped (s rest : text) :
  parse_chars (flat_map escape_char s ++ dquote :: rest) = Some (s, rest).
Proof.
  induction s as [|c s IH]; simpl.
  - reflexivity.
  - rewrite <- app_assoc, parse_chars_escape, IH. reflexivity.
Qed.

Lemma parse_quoted_quote (s rest : text) :
  parse_quoted (quote s ++ rest) = Some (string_of_list_ascii s, rest).
Proof.
  unfold quote. simpl. rewrite <- app_assoc. simpl.
  now rewrite parse_chars_escaped.
Qed.

(** **** Numbers *)

Lemma value_end_not_digit (c : ascii) (r : text) :
  value_end (c :: r) = true -> is_digit c = false.
Proof.
  simpl. intros H. apply andb_prop in H as [H _].
  now apply negb_true_iff in H.
Qed.

Lemma value_end_no_fraction (rest : text) :
  value_end rest = true -> starts_fraction rest = false.
Proof.
  destruct rest as [|c r]; [reflexivity|].
  unfold value_end. intros H. apply andb_prop in H as [_ H].
  now apply negb_true_iff in H.
Qed.

Lemma read_digits_stop (c : ascii) (r : text) :
  is_digit c = false -> read_digits (c :: r) = (Decimal.Nil, c :: r).
Proof.
  destruct c as [[] [] [] [] [] [] [] []]; intros H;
    try discriminate H; reflexivity.
Qed.

Lemma read_digits_print (d : Decimal.uint) (rest : text) :
  value_end rest = true -> read_digits (chars_of_uint d ++ rest) = (d, rest).
Proof.
  intros Hend.
  induction d as [|d IH|d IH|d IH|d IH|d IH|d IH|d IH|d IH|d IH|d IH];
    try (simpl; rewrite IH; reflexivity).
  simpl. destruct rest as [|c r]; [reflexivity|].
  apply read_digits_stop. now apply value_end_not_digit with r.
Qed.

(** The decimal digits of a positive number start with a digit 1-9. *)
Lemma to_uint_head (p : positive) :
  match Pos.to_uint p with
  | Decimal.Nil | Decimal.D0 _ => False
  | _ => True
  end.
Proof.
  pose proof (DecimalPos.Unsigned.to_uint_nonzero p) as Hnz.
  pose proof (DecimalN.Unsigned.to_of (N.to_uint (Npos p))) as Hnorm.
  rewrite DecimalN.Unsigned.of_to in Hnorm. simpl in Hnorm.
  assert (Hhead : Decimal.nzhead (Pos.to_uint p) <> Decimal.Nil).
  { intros E. apply DecimalFacts.unorm_0 in E. congruence. }
  rewrite (DecimalFacts.unorm_nzhead _ Hhead) in Hnorm.
  pose proof (DecimalFacts.nzhead_nonzero (Pos.to_uint p)) as Hd0.
  rewrite <- Hnorm in Hd0, Hhead.
  destruct (Pos.to_uint p); try exact I.
  - now apply Hhead.
  - now apply (Hd0 u).
Qed.

Lemma parse_N_print (n : N) (rest : text) :
  value_end rest = true -> parse_N (print_N n ++ rest) = Some (n, rest).
Proof.
  intros Hend. pose proof (value_end_no_fraction _ Hend) as Hfr.
  destruct n as [|p].
  - simpl. now rewrite Hfr.
  - unfold print_N. pose proof (to_uint_head p) as Hh.
    pose proof (DecimalN.Unsigned.of_to (Npos p)) as Hof.
    pose proof (read_digits_print (N.to_uint (Npos p)) rest Hend) as Hrd.
    simpl N.to_uint in *.
    destruct (Pos.to_uint p) as [|u|u|u|u|u|u|u|u|u|u]; try contradiction;
      unfold parse_N; cbn [chars_of_uint app];
      cbn [chars_of_uint app] in Hrd; rewrite Hrd;
      match goal with
      | |- context [(code ?c =? 48)%N] =>
          change (code c =? 48)%N with false;
          change (is_digit c) with true
      end;
      cbv iota; rewrite Hfr, Hof; reflexivity.
Qed.

Lemma print_N_head (n : N) :
  exists c t, print_N n = c :: t /\ is_digit c = true.
Proof.
  unfold print_N. destruct n as [|p].
  - now exists "0"%char, [].
  - pose proof (to_uint_head p) as Hh. simpl.
    destruct (Pos.to_uint p) as [|u|u|u|u|u|u|u|u|u|u]; try contradiction;
      simpl; eauto.
Qed.

Lemma digit_not_minus (c : ascii) :
  is_digit c = true -> (code c =? 45)%N = false.
Proof.
  unfold is_digit. intros H. apply andb_prop in H as [H _].
  apply N.leb_le in H. apply N.eqb_neq. lia.
Qed.

Lemma parse_Z_print (z : Z) (rest : text) :
  value_end rest = true -> parse_Z (print_Z z ++ rest) = Some (z, rest).
Proof.
  intros Hend. destruct z as [|p|p].
  - simpl. now rewrite (value_end_no_fraction _ Hend).
  - unfold print_Z. simpl Z.to_N.
    pose proof (parse_N_print (Npos p) rest Hend) as HN.
    destruct (print_N_head (Npos p)) as (c & t & E & Hc).
    rewrite E in *. simpl app in *. unfold parse_Z.
    rewrite (digit_not_minus _ Hc), HN. reflexivity.
  - unfold print_Z. cbn [app]. unfold parse_Z.
    change (code "-"%char =? 45)%N with true. cbv iota.
    rewrite (parse_N_print (Npos p) rest Hend). reflexivity.
Qed.

Lemma print_Z_head (z : Z) :
  exists c t, print_Z z = c :: t /\ (c = "-"%char \/ is_digit c = true).
Proof.
  destruct z as [|p|p].
  - exists "0"%char, []. auto.
  - destruct (print_N_head (Npos p)) as (c & t & E & Hc).
    exists c, t. auto.
  - exists "-"%char, (print_N (Npos p)). auto.
Qed.

(** **** Values *)

Lemma digit_starts_value (c : ascii) :
  c = "-"%char \/ is_digit c = true -> starts_value c = true.
Proof.
  intros [->|H]; [reflexivity|].
  destruct c as [[] [] [] [] [] [] [] []]; try discriminate H; reflexivity.
Qed.

Lemma quote_head (s : text) : exists t, quote s = dquote :: t.
Proof. unfold quote. eauto. Qed.

Lemma print_head (v : JSON) :
  exists c t, print v = c :: t /\ starts_value c = true.
Proof.
  destruct v as [|[]|z|s|[|x r]|[|[k x] r]];
    try (simpl; eexists; eexists; split; [reflexivity|reflexivity]).
  destruct (print_Z_head z) as (c & t & E & Hc).
  exists c, t. split; [exact E|]. now apply digit_starts_value.
Qed.

Lemma parse_value_number (d : nat) (c : ascii) (r : text) :
  c = "-"%char \/ is_digit c = true ->
  parse_value (S d) (c :: r) =
  match parse_Z (c :: r) with
  | Some (z, r') => Some (JNum z, r')
  | None => None
  end.
Proof.
  intros [->|H]; [reflexivity|].
  destruct c as [[] [] [] [] [] [] [] []]; try discriminate H; reflexivity.
Qed.

Lemma starts_value_skip (c : ascii) (r : text) :
  starts_value c = true -> skip_ws (c :: r) = c :: r.
Proof.
  unfold starts_value. intros H.
  apply andb_prop in H as [H _]. apply andb_prop in H as [H _].
  apply negb_true_iff in H. now apply skip_ws_stop.
Qed.

Lemma parse_value_array (d : nat) (c : ascii) (r : text) :
  starts_value c = true ->
  parse_value (S d) ("["%char :: c :: r) =
  match parse_value d (c :: r) with
  | Some (x, r1) =>
      match parse_elements (parse_value d) (List.length r1) r1 with
      | Some (xs, r2) => Some (JArr (x :: xs), r2)
      | None => None
      end
  | None => None
  end.
Proof.
  intros H. pose proof (starts_value_skip c r H) as Hskip.
  unfold starts_value in H.
  apply andb_prop in H as [H _]. apply andb_prop in H as [_ H].
  apply negb_true_iff in H.
  cbn [parse_value]. rewrite (skip_ws_stop "["%char) by reflexivity.
  change (code "["%char =? 110)%N with false.
  change (code "["%char =? 116)%N with false.
  change (code "["%char =? 102)%N with false.
  change (code "["%char =? 34)%N with false.
  change (code "["%char =? 91)%N with true.
  cbv iota. rewrite Hskip, H. reflexivity.
Qed.

Lemma parse_value_object (d : nat) (c : ascii) (r : text) :
  starts_value c = true ->
  parse_value (S d) ("{"%char :: c :: r) =
  match parse_member (parse_value d) (c :: r) with
  | Some (kx, r1) =>
      match parse_members (parse_value d) (List.length r1) r1 with
      | Some (kxs, r2) => Some (JObj (build_object (kx :: kxs)), r2)
      | None => None
      end
  | None => None
  end.
Proof.
  intros H. pose proof (starts_value_skip c r H) as Hskip.
  unfold starts_value in H.
  apply andb_prop in H as [_ H].
  apply negb_true_iff in H.
  cbn [parse_value]. rewrite (skip_ws_stop "{"%char) by reflexivity.
  change (code "{"%char =? 110)%N with false.
  change (code "{"%char =? 116)%N with false.
  change (code "{"%char =? 102)%N with false.
  change (code "{"%char =? 34)%N with false.
  change (code "{"%char =? 91)%N with false.
  change (code "{"%char =? 123)%N with true.
  cbv iota. rewrite Hskip, H. reflexivity.
Qed.

Lemma print_array_cons (x : JSON) (r : list JSON) :
  print (JArr (x :: r)) = "["%char :: print x ++ print_elements r.
Proof. reflexivity. Qed.

Lemma print_object_cons (k : string) (x : JSON) (r : list (string * JSON)) :
  print (JObj ((k, x) :: r))
  = "{"%char :: print_key k ++ print x ++ print_members r.
Proof. reflexivity. Qed.

Lemma value_end_elements (r : list JSON) (rest : text) :
  value_end (print_elements r ++ rest) = true.
Proof. destruct r; reflexivity. Qed.

Lemma value_end_members (r : list (string * JSON)) (rest : text) :
  value_end (print_members r ++ rest) = true.
Proof. destruct r as [|[k y] r]; reflexivity. Qed.

Lemma length_print_elements (r : list JSON) (rest : text) :
  (List.length r < List.length (print_elements r ++ rest))%nat.
Proof.
  induction r as [|y r IH]; simpl.
  - lia.
  - rewrite <- app_assoc, length_app. lia.
Qed.

Lemma length_print_members (r : list (string * JSON)) (rest : text) :
  (List.length r < List.length (print_members r ++ rest))%nat.
Proof.
  induction r as [|[k y] r IH].
  - simpl. lia.
  - cbn [print_members]. rewrite <- app_comm_cons. cbn [List.length].
    rewrite <- !app_assoc, !length_app. rewrite length_app in IH. lia.
Qed.

Section Loops.
Variable pv : text -> option (JSON * text).

Lemma parse_elements_print (r : list JSON) :
  Forall (reads_back pv) r ->
  forall (n : nat) (rest : text),
    (List.length r < n)%nat ->
    parse_elements pv n (print_elements r ++ rest) = Some (r, rest).
Proof.
  induction 1 as [|y r Hy _ IH]; intros n rest Hn.
  - destruct n; [lia|]. reflexivity.
  - destruct n; [simpl in Hn; lia|].
    cbn [print_elements app parse_elements].
    rewrite (skip_ws_stop ","%char) by reflexivity.
    change (code ","%char =? 93)%N with false.
    change (code ","%char =? 44)%N with true. cbv iota.
    rewrite <- app_assoc, Hy by apply value_end_elements.
    rewrite IH by (simpl in Hn; lia). reflexivity.
Qed.

Lemma parse_member_print (k : string) (y : JSON) (rest : text) :
  reads_back pv y -> value_end rest = true ->
  parse_member pv (print_key k ++ print y ++ rest) = Some ((k, y), rest).
Proof.
  intros Hy Hend. unfold parse_member, print_key.
  destruct (quote_head (list_ascii_of_string k)) as (t & Et).
  rewrite <- app_assoc.
  assert (Hskip : skip_ws (quote (list_ascii_of_string k)
                           ++ [":"%char] ++ print y ++ rest)
                  = quote (list_ascii_of_string k)
                    ++ [":"%char] ++ print y ++ rest).
  { rewrite Et. reflexivity. }
  rewrite Hskip, parse_quoted_quote, string_of_list_ascii_of_string.
  cbn [app]. rewrite (skip_ws_stop ":"%char) by reflexivity.
  change (code ":"%char =? 58)%N with true. cbv iota.
  now rewrite Hy.
Qed.

Lemma parse_members_print (r : list (string * JSON)) :
  Forall (fun kv => reads_back pv (snd kv)) r ->
  forall (n : nat) (rest : text),
    (List.length r < n)%nat ->
    parse_members pv n (print_members r ++ rest) = Some (r, rest).
Proof.
  induction 1 as [|[k y] r Hy _ IH]; intros n rest Hn.
  - destruct n; [lia|]. reflexivity.
  - destruct n; [simpl in Hn; lia|].
    cbn [print_members app parse_members].
    rewrite (skip_ws_stop ","%char) by reflexivity.
    change (code ","%char =? 125)%N with false.
    change (code ","%char =? 44)%N with true. cbv iota.
    rewrite <- !app_assoc.
    rewrite parse_member_print;
      [|exact Hy|apply value_end_members].
    rewrite IH by (simpl in Hn; lia). reflexivity.
Qed.
End Loops.

(** **** Objects with distinct keys are built as written *)

Lemma define_property_fresh (k : string) (v : JSON)
      (acc : list (string * JSON)) :
  existsb (String.eqb k) (map fst acc) = false ->
  define_property k v acc = acc ++ [(k, v)].
Proof.
  induction acc as [|[k' v'] acc IH]; simpl; intros H.
  - reflexivity.
  - apply orb_false_elim in H as [Hk H]. rewrite Hk, IH by exact H.
    reflexivity.
Qed.

Lemma existsb_app_false {A : Type} (f : A -> bool) (l1 l2 : list A) :
  existsb f (l1 ++ l2) = false ->
  existsb f l1 = false /\ existsb f l2 = false.
Proof. rewrite existsb_app. apply orb_false_elim. Qed.

Lemma distinct_app_cons (k : string) (l1 l2 : list string) :
  distinct (l1 ++ k :: l2) = true ->
  existsb (String.eqb k) l1 = false /\ distinct ((l1 ++ [k]) ++ l2) = true.
Proof.
  induction l1 as [|a l1 IH]; simpl; intros H.
  - auto.
  - apply andb_prop in H as [Ha Hd]. apply negb_true_iff in Ha.
    destruct (IH Hd) as [Hk Hd'].
    apply existsb_app_false in Ha as [Ha1 Ha2]. simpl in Ha2.
    apply orb_false_elim in Ha2 as [Hak Ha2].
    rewrite String.eqb_sym in Hak. rewrite Hak, Hk, Hd'. split; [reflexivity|].
    rewrite andb_true_r. apply negb_true_iff.
    rewrite !existsb_app. simpl. rewrite Ha1, Ha2.
    rewrite String.eqb_sym in Hak. now rewrite Hak.
Qed.

Lemma build_object_from (l acc : list (string * JSON)) :
  distinct (map fst acc ++ map fst l) = true ->
  fold_left (fun a kv => define_property (fst kv) (snd kv) a) l acc
  = acc ++ l.
Proof.
  revert acc. induction l as [|[k v] l IH]; intros acc H; simpl.
  - now rewrite app_nil_r.
  - simpl in H. apply distinct_app_cons in H as [Hk Hd].
    rewrite define_property_fresh by exact Hk.
    rewrite IH.
    + now rewrite <- app_assoc.
    + now rewrite map_app.
Qed.

Lemma build_object_distinct (l : list (string * JSON)) :
  distinct (map fst l) = true -> build_object l = l.
Proof. intros H. unfold build_object. now rewrite build_object_from. Qed.

(** **** Nesting *)

Lemma fold_max_ge {A : Type} (f : A -> nat) (l : list A) (x : A) :
  In x l -> (f x <= fold_right (fun y n => Nat.max (f y) n) 0 l)%nat.
Proof.
  induction l as [|y l IH]; simpl; intros H; [contradiction|].
  destruct H as [->|H]; [lia|]. specialize (IH H). lia.
Qed.

Lemma fold_max_le {A : Type} (f : A -> nat) (l : list A) (b : nat) :
  (forall x, In x l -> (f x <= b)%nat) ->
  (fold_right (fun y n => Nat.max (f y) n) 0 l <= b)%nat.
Proof.
  induction l as [|y l IH]; simpl; intros H; [lia|].
  pose proof (H y (or_introl eq_refl)).
  assert (fold_right (fun y n => Nat.max (f y) n) 0 l <= b)%nat
    by (apply IH; auto).
  lia.
Qed.

Lemma in_print_elements (r : list JSON) (y : JSON) :
  In y r -> (List.length (print y) < List.length (print_elements r))%nat.
Proof.
  induction r as [|z r IH]; simpl; intros H; [contradiction|].
  rewrite length_app. destruct H as [->|H]; [lia|]. specialize (IH H). lia.
Qed.

Lemma in_print_members (r : list (string * JSON)) (k : string) (y : JSON) :
  In (k, y) r -> (List.length (print y) < List.length (print_members r))%nat.
Proof.
  induction r as [|[k' z] r IH]; intros H; [contradiction|].
  cbn [print_members List.length]. rewrite !length_app.
  destruct H as [E|H]; [injection E as -> ->; lia|].
  specialize (IH H). lia.
Qed.

Lemma nesting_le_length (v : JSON) : (nesting v <= List.length (print v))%nat.
Proof.
  induction v as [|b|z|s|l IH|l IH] using JSON_nested_ind.
  - simpl. lia.
  - destruct b; simpl; lia.
  - destruct (print_Z_head z) as (c & t & E & _). simpl. rewrite E. simpl. lia.
  - simpl. lia.
  - cbn [nesting]. destruct l as [|x r]; [simpl; lia|].
    rewrite print_array_cons. cbn [List.length]. apply le_n_S.
    apply fold_max_le. intros y Hy. rewrite Forall_forall in IH.
    specialize (IH y Hy). rewrite length_app.
    destruct Hy as [->|Hy]; [lia|].
    pose proof (in_print_elements r y Hy). lia.
  - cbn [nesting]. destruct l as [|[k x] r]; [simpl; lia|].
    rewrite print_object_cons. cbn [List.length]. apply le_n_S.
    apply fold_max_le. intros [k' y] Hy. rewrite Forall_forall in IH.
    specialize (IH (k', y) Hy). simpl in IH. rewrite !length_app.
    destruct Hy as [E|Hy]; [injection E as -> ->; lia|].
    pose proof (in_print_members r k' y Hy). lia.
Qed.

(** **** The round trip *)

Lemma parse_value_print (v : JSON) :
  json_ok v = true ->
  forall (d : nat) (rest : text),
    (nesting v <= d)%nat -> value_end rest = true ->
    parse_value d (print v ++ rest) = Some (v, rest).
Proof.
  induction v as [|b|z|s|l IH|l IH] using JSON_nested_ind;
    intros Hok d rest Hd Hend;
    (destruct d as [|d]; [simpl in Hd; lia|]).
  - reflexivity.
  - destruct b; reflexivity.
  - cbn [print]. destruct (print_Z_head z) as (c & t & E & Hc).
    pose proof (parse_Z_print z rest Hend) as HZ.
    rewrite E in *. cbn [app] in *.
    now rewrite parse_value_number, HZ.
  - cbn [print]. destruct (quote_head (list_ascii_of_string s)) as (t & Et).
    pose proof (parse_quoted_quote (list_ascii_of_string s) rest) as HQ.
    rewrite Et in *. cbn [app] in *. cbn [parse_value].
    rewrite (skip_ws_stop dquote) by reflexivity.
    change (code dquote =? 110)%N with false.
    change (code dquote =? 116)%N with false.
    change (code dquote =? 102)%N with false.
    change (code dquote =? 34)%N with true. cbv iota.
    now rewrite HQ, string_of_list_ascii_of_string.
  - destruct l as [|x r]; [reflexivity|].
    cbn [json_ok forallb] in Hok. apply andb_prop in Hok as [Hx Hr].
    cbn [nesting fold_right] in Hd.
    inversion IH as [|? ? IHx IHr]; subst.
    rewrite print_array_cons. cbn [app]. rewrite <- app_assoc.
    assert (Hpx : parse_value d (print x ++ print_elements r ++ rest)
                  = Some (x, print_elements r ++ rest)).
    { apply IHx; [exact Hx|lia|apply value_end_elements]. }
    destruct (print_head x) as (c & t & E & Hc).
    rewrite E in *. cbn [app] in *.
    rewrite parse_value_array, Hpx by exact Hc.
    rewrite parse_elements_print; [reflexivity| |apply length_print_elements].
    rewrite Forall_forall in IHr |- *. intros y Hy rest' Hend'.
    apply IHr; [exact Hy| |  |exact Hend'].
    + rewrite forallb_forall in Hr. now apply Hr.
    + pose proof (fold_max_ge nesting r y Hy). lia.
  - destruct l as [|[k x] r]; [reflexivity|].
    cbn [json_ok] in Hok. apply andb_prop in Hok as [Hkeys Hok].
    cbn [forallb] in Hok. apply andb_prop in Hok as [Hx Hr].
    cbn [nesting fold_right] in Hd.
    inversion IH as [|? ? IHx IHr]; subst. cbn [snd] in IHx.
    rewrite print_object_cons. cbn [app]. rewrite <- !app_assoc.
    assert (Hpm : parse_member (parse_value d)
                    (print_key k ++ print x ++ print_members r ++ rest)
                  = Some ((k, x), print_members r ++ rest)).
    { apply parse_member_print; [|apply value_end_members].
      intros rest' Hend'. apply IHx; [exact Hx|lia|exact Hend']. }
    unfold print_key in *.
    destruct (quote_head (list_ascii_of_string k)) as (t & Et).
    rewrite Et in *. cbn [app] in *.
    rewrite parse_value_object, Hpm by reflexivity.
    rewrite parse_members_print; [| |apply length_print_members].
    + now rewrite build_object_distinct.
    + rewrite Forall_forall in IHr |- *. intros [k' y] Hy rest' Hend'.
      apply (IHr (k', y)); [exact Hy| | |exact Hend'].
      * rewrite forallb_forall in Hr. now apply (Hr (k', y)).
      * pose proof (fold_max_ge
                      (fun kv : string * JSON =>
                         match kv with (_, x) => nesting x end)
                      r (k', y) Hy).
        simpl in *. lia.
Qed.

(** On the embedded fragment (integers, code units up to U+00FF) the text
    written for a value reads back as that value.  It is what makes the rows
    written by [createVideo] decodable; it says nothing of the engine's
    codec on the values outside the fragment. *)
Lemma JSON_parse_stringify (v : JSON) :
  json_ok v = true -> JSON_parse (JSON_stringify v) = Some v.
Proof.
  intros Hok. unfold JSON_parse, JSON_stringify.
  rewrite list_ascii_of_string_of_list_ascii.
  pose proof (parse_value_print v Hok (List.length (print v)) []
                                (nesting_le_length v) eq_refl) as H.
  rewrite List.app_nil_r in H. now rewrite H.
Qed.

End JsonFacts.

(** * Facts about the catalogue *)

Example JAVID_ex :
  JAVID (sample_info "ABC" "001" "h1") = "ABC-001"
  /\ JAVID [("company", JNum 7); ("id", JArr [JNum 1; JNull; JArr [JNum 2]])]
     = "7-1,,2"
  /\ JAVID [("hash", JStr "h9")] = "undefined-undefined".
Proof. repeat split; reflexivity. Qed.

(** The scenario of the specification: A (hash h1) is created as 1, B with
    the same hash gives 1 again and adds no row, C (hash h2) is created as
    2; the first page lists 2 then 1, and only 1 once 2 is hidden. *)
Example scenario_ex :
  let w0 := empty_world (collaborators := sample) [] in
  let a := createVideo w0 (sample_info "ABC" "001" "h1") sample_files 1 in
  let b := createVideo (snd a) (sample_info "DEF" "002" "h1") sample_files 2 in
  let c := createVideo (snd b) (sample_info "GHI" "003" "h2") sample_files 3 in
  let hidden := hideVideo (snd c) 2 in
  fst a = Returned (Some 1)
  /\ fst b = Returned (Some 1)
  /\ List.length (videos (snd b)) = 1%nat
  /\ fst c = Returned (Some 2)
  /\ ids_of (getVideoList (snd c) 1 20 false 0) = [2; 1]
  /\ fst hidden = true
  /\ ids_of (getVideoList (snd hidden) 1 20 false 0) = [1]
  /\ ids_of (getVideoList (snd hidden) 1 20 true 0) = [2; 1].
Proof. vm_compute. repeat split; reflexivity. Qed.

Section VideoFacts.
Context {collaborators : Collaborators}.

(** **** Rows of a well-formed store *)

Lemma row_ok_inv (next : Z) (r : Row.t) :
  row_ok next r = true ->
  0 < Row.id r < next
  /\ (Row.isHiden r = 0 \/ Row.isHiden r = 1)
  /\ (exists members, JSON_parse (Row.videoMetadata r) = Some (JObj members))
  /\ (exists v, JSON_parse (Row.storyboardFileIdSet r) = Some v).
Proof.
  unfold row_ok. intros H.
  apply andb_prop in H as [H Hsb]. apply andb_prop in H as [H Hmeta].
  apply andb_prop in H as [H Hflag]. apply andb_prop in H as [Hlo Hhi].
  apply Z.ltb_lt in Hlo, Hhi. apply orb_prop in Hflag.
  split; [lia|]. split; [|split].
  - destruct Hflag as [E|E]; apply Z.eqb_eq in E; auto.
  - destruct (JSON_parse (Row.videoMetadata r)) as [[]|];
      try discriminate Hmeta. eauto.
  - destruct (JSON_parse (Row.storyboardFileIdSet r));
      try discriminate Hsb. eauto.
Qed.

Lemma store_ok_inv (w : World) :
  store_ok w = true ->
  0 < nextId w
  /\ forallb (row_ok (nextId w)) (videos w) = true
  /\ distinct_ids (map Row.id (videos w)) = true.
Proof.
  unfold store_ok. intros H.
  apply andb_prop in H as [H Hd]. apply andb_prop in H as [Hn Hr].
  apply Z.ltb_lt in Hn. auto.
Qed.

Lemma store_ok_rows (w : World) :
  store_ok w = true ->
  forall r, In r (videos w) -> row_ok (nextId w) r = true.
Proof.
  intros H r Hr. apply store_ok_inv in H as (_ & H & _).
  rewrite forallb_forall in H. now apply H.
Qed.

Lemma row_ok_id_truthy (next : Z) (r : Row.t) :
  row_ok next r = true -> truthy_number (Row.id r) = true.
Proof.
  intros H. apply row_ok_inv in H as [Hid _].
  unfold truthy_number. apply negb_true_iff, Z.eqb_neq. lia.
Qed.

Lemma hash_condition_total (next : Z) (h : JSON) (r : Row.t) :
  row_ok next r = true -> exists b, hash_condition h r = Returned b.
Proof.
  intros H. apply row_ok_inv in H as (_ & _ & [members E] & _).
  unfold hash_condition, json_extract_hash. rewrite E.
  destruct (assoc "hash" members); eauto.
Qed.

Lemma first_by_hash_found (next : Z) (h : JSON) (rows : list Row.t) :
  forallb (row_ok next) rows = true ->
  (exists r, In r rows /\ hash_condition h r = Returned true) ->
  exists r, first_by_hash h rows = Returned (Some r)
            /\ In r rows /\ hash_condition h r = Returned true.
Proof.
  induction rows as [|r0 rows IH]; intros Hok [r [Hin Hr]].
  - contradiction.
  - cbn [forallb] in Hok. apply andb_prop in Hok as [Hr0 Hok].
    destruct (hash_condition_total next h r0 Hr0) as [b Hb].
    cbn [first_by_hash]. rewrite Hb. destruct b.
    + exists r0. simpl. auto.
    + destruct Hin as [->|Hin]; [congruence|].
      destruct (IH Hok (ex_intro _ r (conj Hin Hr))) as (r1 & E & Hin1 & H1).
      exists r1. simpl. auto.
Qed.

(** A duplicate hash ends [createVideo] at its first return: the id of the
    first matching row, and the world as it was. *)
Lemma createVideo_duplicate (w : World) (info : list (string * JSON))
      (fileIds : FileIds.t) (now : Z) (h : JSON) :
  store_ok w = true ->
  assoc "hash" info = Some h ->
  existsb (hash_matches h) (videos w) = true ->
  exists r, In r (videos w) /\ hash_condition h r = Returned true
            /\ createVideo w info fileIds now
               = (Returned (Some (Row.id r)), w).
Proof.
  intros Hok Hh Hex.
  apply existsb_exists in Hex as [r0 [Hin0 Hm0]].
  assert (Hex : exists r, In r (videos w)
                          /\ hash_condition h r = Returned true).
  { exists r0. split; [exact Hin0|]. unfold hash_matches in Hm0.
    destruct (hash_condition h r0) as [[]|]; congruence. }
  assert (Hrows : forallb (row_ok (nextId w)) (videos w) = true)
    by apply (store_ok_inv w Hok).
  destruct (first_by_hash_found _ h _ Hrows Hex) as (r & E & Hin & Hr).
  exists r. repeat split; try assumption.
  unfold createVideo. rewrite Hh, E.
  now rewrite (row_ok_id_truthy _ _ (store_ok_rows w Hok r Hin)).
Qed.




Lemma createVideo_fresh (w : World) (info : list (string * JSON))
      (fileIds : FileIds.t) (now : Z) (h : JSON) :
  assoc "hash" info = Some h ->
  first_by_hash h (videos w) = Returned None ->
  createVideo w info fileIds now =
  (let '(metaId, linker') := getMetadataId (JAVID info) (linker w) in
   let calls := linkerCalls w ++ [JAVID info] in
   if metaId =? 0
   then (Returned None, mkWorld (videos w) (nextId w) linker' calls)
   else (Returned (Some (nextId w)),
         mkWorld (videos w
                  ++ [inserted_row (nextId w) metaId info fileIds now])
                 (nextId w + 1) linker' calls)).
Proof.
  intros Hh Hfirst. unfold createVideo. rewrite Hh, Hfirst.
  destruct (getMetadataId (JAVID info) (linker w)) as [metaId linker'].
  destruct (metaId =? 0); reflexivity.
Qed.


(** What [createVideo] may do to the world: nothing to the table, or one
    row appended, visible, under the next id. *)
Lemma createVideo_table (w : World) (info : list (string * JSON))
      (fileIds : FileIds.t) (now : Z) :
  let w' := snd (createVideo w info fileIds now) in
  (videos w' = videos w /\ nextId w' = nextId w)
  \/ (exists metaId,
        metaId <> 0
        /\ fst (createVideo w info fileIds now) = Returned (Some (nextId w))
        /\ videos w'
           = videos w ++ [inserted_row (nextId w) metaId info fileIds now]
        /\ nextId w' = nextId w + 1).
Proof.
  unfold createVideo.
  destruct (assoc "hash" info) as [h|]; [|left; auto].
  destruct (first_by_hash h (videos w)) as [result|e]; [|left; auto].
  match goal with
  | |- context [match ?d with Some _ => _ | None => _ end] =>
      destruct d as [existing|]
  end; [left; auto|].
  destruct (getMetadataId (JAVID info) (linker w)) as [metaId linker'].
  destruct (metaId =? 0) eqn:E; [left; auto|].
  right. exists metaId. apply Z.eqb_neq in E. simpl. auto.
Qed.


(** **** Visibility updates *)

Lemma update_count (sel : Row.t -> bool) (v : Z) (rows : list Row.t) :
  truthy_number (snd (update_isHiden sel v rows)) = existsb sel rows.
Proof.
  unfold update_isHiden, truthy_number. cbn [snd].
  induction rows as [|r rows IH]; [reflexivity|].
  cbn [filter existsb]. destruct (sel r); [|exact IH].
  cbn [orb List.length]. apply negb_true_iff, Z.eqb_neq. lia.
Qed.

Lemma update_no_match (sel : Row.t -> bool) (v : Z) (rows : list Row.t) :
  existsb sel rows = false -> fst (update_isHiden sel v rows) = rows.
Proof.
  unfold update_isHiden. cbn [fst].
  induction rows as [|r rows IH]; [reflexivity|].
  simpl. intros H. apply orb_false_elim in H as [Hr H].
  now rewrite Hr, IH.
Qed.

Lemma update_frame (sel : Row.t -> bool) (v : Z) (rows : list Row.t) :
  Forall2 same_but_isHiden rows (fst (update_isHiden sel v rows)).
Proof.
  unfold update_isHiden. cbn [fst].
  induction rows as [|r rows IH]; simpl; constructor; [|exact IH].
  destruct (sel r); unfold same_but_isHiden; simpl; tauto.
Qed.

Lemma set_videos_same (w : World) : set_videos (videos w) w = w.
Proof. now destruct w. Qed.

Lemma hideVideo_eq (w : World) (id : Z) :
  hideVideo w id
  = (existsb (fun r => Row.id r =? id) (videos w),
     set_videos (map (fun r => if Row.id r =? id
                               then Row.set_isHiden 1 r else r) (videos w))
                w).
Proof.
  unfold hideVideo.
  pose proof (update_count (fun r => Row.id r =? id) 1 (videos w)) as H.
  unfold update_isHiden in *. cbn [snd] in H. now rewrite H.
Qed.

Lemma unhideVideo_eq (w : World) (id : Z) :
  unhideVideo w id
  = (existsb (fun r => Row.id r =? id) (videos w),
     set_videos (map (fun r => if Row.id r =? id
                               then Row.set_isHiden 0 r else r) (videos w))
                w).
Proof.
  unfold unhideVideo.
  pose proof (update_count (fun r => Row.id r =? id) 0 (videos w)) as H.
  unfold update_isHiden in *. cbn [snd] in H. now rewrite H.
Qed.

Lemma same_but_isHiden_refl (r : Row.t) : same_but_isHiden r r.
Proof. unfold same_but_isHiden. tauto. Qed.

Lemma same_but_isHiden_trans (a b c : Row.t) :
  same_but_isHiden a b -> same_but_isHiden b c -> same_but_isHiden a c.
Proof. unfold same_but_isHiden. intuition congruence. Qed.

Lemma Forall2_same_refl (rows : list Row.t) :
  Forall2 same_but_isHiden rows rows.
Proof.
  induction rows; constructor; auto using same_but_isHiden_refl.
Qed.

Lemma Forall2_same_trans (l1 l2 l3 : list Row.t) :
  Forall2 same_but_isHiden l1 l2 -> Forall2 same_but_isHiden l2 l3 ->
  Forall2 same_but_isHiden l1 l3.
Proof.
  intros H. revert l3. induction H; intros l3 H3; inversion H3; subst;
    constructor; eauto using same_but_isHiden_trans.
Qed.

Lemma apply_op_frame (w : World) (op : VisibilityOp) :
  Forall2 same_but_isHiden (videos w) (videos (apply_op w op))
  /\ nextId (apply_op w op) = nextId w
  /\ linker (apply_op w op) = linker w
  /\ linkerCalls (apply_op w op) = linkerCalls w.
Proof.
  destruct op as [id|id]; unfold apply_op;
    [rewrite hideVideo_eq|rewrite unhideVideo_eq]; cbn [snd set_videos videos
      nextId linker linkerCalls]; (split; [|auto]).
  - apply (update_frame (fun r => Row.id r =? id) 1).
  - apply (update_frame (fun r => Row.id r =? id) 0).
Qed.

(** **** Ordering *)

Lemma insert_desc_perm (r : Row.t) (l : list Row.t) :
  Permutation (insert_desc r l) (r :: l).
Proof.
  induction l as [|x l IH]; simpl.
  - apply Permutation_refl.
  - destruct (Row.id x <=? Row.id r).
    + apply Permutation_refl.
    + eapply perm_trans; [apply perm_skip, IH|apply perm_swap].
Qed.

Lemma orderBy_perm (l : list Row.t) : Permutation (orderBy_id_desc l) l.
Proof.
  induction l as [|r l IH]; simpl.
  - apply perm_nil.
  - eapply perm_trans; [apply insert_desc_perm|now apply perm_skip].
Qed.

Lemma insert_desc_sorted (r : Row.t) (l : list Row.t) :
  StronglySorted Z.ge (map Row.id l) ->
  StronglySorted Z.ge (map Row.id (insert_desc r l)).
Proof.
  induction l as [|x l IH]; simpl; intros H.
  - repeat constructor.
  - apply StronglySorted_inv in H as [Hl Hx].
    destruct (Row.id x <=? Row.id r) eqn:E.
    + apply Z.leb_le in E. simpl. constructor.
      * constructor; assumption.
      * constructor; [lia|].
        eapply Forall_impl; [|exact Hx]. simpl. intros; lia.
    + apply Z.leb_gt in E. simpl. constructor; [now apply IH|].
      apply (Permutation_Forall
               (Permutation_sym
                  (Permutation_map Row.id (insert_desc_perm r l)))).
      simpl. constructor; [lia|exact Hx].
Qed.

Lemma orderBy_sorted (l : list Row.t) :
  StronglySorted Z.ge (map Row.id (orderBy_id_desc l)).
Proof.
  induction l as [|r l IH]; simpl.
  - constructor.
  - now apply insert_desc_sorted.
Qed.

Lemma sorted_strict (l : list Z) :
  StronglySorted Z.ge l -> NoDup l -> StronglySorted Z.gt l.
Proof.
  induction 1 as [|a l Hs IH Ha]; intros Hnd; constructor.
  - apply IH. now inversion Hnd.
  - inversion Hnd as [|? ? Hnotin _]; subst.
    rewrite Forall_forall in Ha |- *. intros x Hx.
    specialize (Ha x Hx). assert (x <> a) by (intros ->; contradiction).
    lia.
Qed.

Lemma sorted_firstn (R : Z -> Z -> Prop) (n : nat) (l : list Z) :
  StronglySorted R l -> StronglySorted R (firstn n l).
Proof.
  intros H. revert n. induction H as [|a l Hs IH Ha]; intros [|n]; simpl;
    try constructor.
  - apply IH.
  - rewrite <- (firstn_skipn n l) in Ha. apply Forall_app in Ha. tauto.
Qed.

Lemma sorted_skipn (R : Z -> Z -> Prop) (n : nat) (l : list Z) :
  StronglySorted R l -> StronglySorted R (skipn n l).
Proof.
  intros H. revert n. induction H as [|a l Hs IH Ha]; intros [|n]; simpl;
    try constructor; auto.
Qed.

(** **** Identifiers *)

Lemma distinct_ids_NoDup (l : list Z) : distinct_ids l = true -> NoDup l.
Proof.
  induction l as [|a l IH]; simpl; intros H; constructor.
  - apply andb_prop in H as [H _]. apply negb_true_iff in H.
    intros Hin. assert (existsb (Z.eqb a) l = true); [|congruence].
    apply existsb_exists. exists a. split; [exact Hin|apply Z.eqb_refl].
  - apply andb_prop in H as [_ H]. now apply IH.
Qed.

Lemma NoDup_distinct_ids (l : list Z) : NoDup l -> distinct_ids l = true.
Proof.
  induction 1 as [|a l Hnotin _ IH]; simpl; [reflexivity|].
  rewrite IH, andb_true_r. apply negb_true_iff.
  destruct (existsb (Z.eqb a) l) eqn:E; [|reflexivity].
  apply existsb_exists in E as [x [Hx E]]. apply Z.eqb_eq in E.
  subst. contradiction.
Qed.

Lemma NoDup_ids_filter (f : Row.t -> bool) (rows : list Row.t) :
  NoDup (map Row.id rows) -> NoDup (map Row.id (filter f rows)).
Proof.
  induction rows as [|r rows IH]; simpl; intros H; [constructor|].
  inversion H as [|? ? Hnotin Hnd]; subst.
  destruct (f r); simpl; [constructor|]; auto.
  intros Hin. apply Hnotin. apply in_map_iff in Hin as [x [E Hx]].
  apply filter_In in Hx as [Hx _]. apply in_map_iff. eauto.
Qed.

(** **** The eligible rows *)

Lemma filter_filter {A : Type} (f g : A -> bool) (l : list A) :
  filter g (filter f l) = filter (fun x => f x && g x) l.
Proof.
  induction l as [|x l IH]; simpl; [reflexivity|].
  destruct (f x); simpl; [destruct (g x)|]; now rewrite IH.
Qed.

Lemma filter_true {A : Type} (l : list A) : filter (fun _ => true) l = l.
Proof. induction l; simpl; congruence. Qed.

Lemma eligible_filter (showHiden : bool) (metadataId : Z)
      (rows : list Row.t) :
  eligible showHiden metadataId rows
  = orderBy_id_desc (filter (is_eligible showHiden metadataId) rows).
Proof.
  unfold eligible, where_, is_eligible. f_equal.
  destruct showHiden, (metadataId =? 0); cbn [negb orb andb].
  - now rewrite filter_true.
  - reflexivity.
  - apply filter_ext. intros r. now rewrite andb_true_r.
  - apply filter_filter.
Qed.

Lemma eligible_perm (showHiden : bool) (metadataId : Z) (rows : list Row.t) :
  Permutation (eligible showHiden metadataId rows)
              (filter (is_eligible showHiden metadataId) rows).
Proof. rewrite eligible_filter. apply orderBy_perm. Qed.

Lemma eligible_In (showHiden : bool) (metadataId : Z) (rows : list Row.t)
      (r : Row.t) :
  In r (eligible showHiden metadataId rows)
  <-> In r rows /\ is_eligible showHiden metadataId r = true.
Proof.
  rewrite <- filter_In. split; apply Permutation_in;
    [|apply Permutation_sym]; apply eligible_perm.
Qed.

Lemma eligible_sorted (showHiden : bool) (metadataId : Z)
      (rows : list Row.t) :
  StronglySorted Z.ge (map Row.id (eligible showHiden metadataId rows)).
Proof. rewrite eligible_filter. apply orderBy_sorted. Qed.

Lemma eligible_NoDup (showHiden : bool) (metadataId : Z) (w : World) :
  store_ok w = true ->
  NoDup (map Row.id (eligible showHiden metadataId (videos w))).
Proof.
  intros H. apply store_ok_inv in H as (_ & _ & H).
  apply distinct_ids_NoDup in H.
  apply (Permutation_NoDup
           (Permutation_sym
              (Permutation_map Row.id
                 (eligible_perm showHiden metadataId (videos w))))).
  now apply NoDup_ids_filter.
Qed.

(** **** Decoding *)

Lemma present_ok (next : Z) (r : Row.t) :
  row_ok next r = true -> exists v, present r = Returned v.
Proof.
  intros H. apply row_ok_inv in H as (_ & _ & [m Em] & [sb Esb]).
  unfold present. rewrite Em, Esb. eauto.
Qed.

Lemma present_columns (r : Row.t) (v : VideoInfo.t) :
  present r = Returned v ->
  VideoInfo.id v = Row.id r
  /\ VideoInfo.metadataId v = Row.metadataId r
  /\ VideoInfo.isHiden v = (Row.isHiden r =? 1).
Proof.
  unfold present.
  destruct (JSON_parse (Row.videoMetadata r)); [|discriminate].
  destruct (JSON_parse (Row.storyboardFileIdSet r)); [|discriminate].
  intros H. injection H as <-. auto.
Qed.

Lemma process_ok (next : Z) (rows : list Row.t) :
  (forall r, In r rows -> row_ok next r = true) ->
  exists vs, process rows = Returned vs
             /\ Forall2 (fun r v => present r = Returned v) rows vs.
Proof.
  induction rows as [|r rows IH]; intros H.
  - exists []. split; [reflexivity|constructor].
  - destruct (present_ok next r (H r (or_introl eq_refl))) as [v Hv].
    destruct IH as (vs & Hvs & Hall); [intros; apply H; now right|].
    exists (v :: vs). cbn [process]. rewrite Hv, Hvs.
    split; [reflexivity|now constructor].
Qed.

Lemma presented_ids (rows : list Row.t) (vs : list VideoInfo.t) :
  Forall2 (fun r v => present r = Returned v) rows vs ->
  map VideoInfo.id vs = map Row.id rows.
Proof.
  induction 1 as [|r v rows vs Hv _ IH]; simpl; [reflexivity|].
  apply present_columns in Hv as [-> _]. now rewrite IH.
Qed.

Lemma presented_from (rows : list Row.t) (vs : list VideoInfo.t)
      (v : VideoInfo.t) :
  Forall2 (fun r v => present r = Returned v) rows vs ->
  In v vs -> exists r, In r rows /\ present r = Returned v.
Proof.
  induction 1 as [|r v' rows vs Hv _ IH]; intros Hin; [contradiction|].
  destruct Hin as [->|Hin].
  - exists r. simpl. auto.
  - destruct (IH Hin) as (r' & Hr' & Hp). exists r'. simpl. auto.
Qed.

(** **** Windows *)

Lemma paginate_In (size page : Z) (l : list Row.t) (r : Row.t) :
  In r (paginate size page l) -> In r l.
Proof.
  unfold paginate. intros H.
  rewrite <- (firstn_skipn (Z.to_nat ((page - 1) * size)) l).
  apply in_or_app. right.
  rewrite <- (firstn_skipn (Z.to_nat size)
                           (skipn (Z.to_nat ((page - 1) * size)) l)).
  apply in_or_app. now left.
Qed.

Lemma paginate_nat (size : Z) (p : nat) (l : list Row.t) :
  0 <= size ->
  paginate size (Z.of_nat (S p)) l
  = firstn (Z.to_nat size) (skipn (p * Z.to_nat size) l).
Proof.
  intros H. unfold paginate. do 2 f_equal.
  replace (Z.of_nat (S p) - 1) with (Z.of_nat p) by lia.
  rewrite Z2Nat.inj_mul by lia. now rewrite Nat2Z.id.
Qed.

Lemma firstn_plus {A : Type} (a b : nat) (l : list A) :
  firstn (a + b) l = firstn a l ++ firstn b (skipn a l).
Proof.
  revert l. induction a as [|a IH]; intros l; [reflexivity|].
  destruct l as [|x l]; simpl.
  - now rewrite firstn_nil.
  - now rewrite IH.
Qed.

Lemma windows_concat {A : Type} (n : nat) (l : list A) (k : nat) :
  List.concat (map (fun p => firstn n (skipn (p * n) l)) (seq 0 k))
  = firstn (k * n) l.
Proof.
  induction k as [|k IH]; [reflexivity|].
  rewrite seq_S, map_app, List.concat_app, IH. simpl.
  rewrite List.app_nil_r, <- firstn_plus. f_equal. lia.
Qed.

Lemma NoDup_firstn {A : Type} (n : nat) (l : list A) :
  NoDup l -> NoDup (firstn n l).
Proof.
  intros H. rewrite <- (firstn_skipn n l) in H.
  now apply NoDup_app_remove_r in H.
Qed.

Lemma on_some_window {A : Type} (n : nat) (l : list A) (x : A) :
  (0 < n)%nat -> In x l ->
  exists p, In x (firstn n (skipn (p * n) l)).
Proof.
  intros Hn Hin. apply In_nth_error in Hin as [i Hi].
  exists (i / n)%nat. apply nth_error_In with (i mod n)%nat.
  rewrite nth_error_firstn.
  pose proof (Nat.mod_upper_bound i n ltac:(lia)) as Hlt.
  apply Nat.ltb_lt in Hlt. rewrite Hlt, nth_error_skipn.
  replace (i / n * n + i mod n)%nat with i; [exact Hi|].
  rewrite (Nat.div_mod_eq i n) at 1. lia.
Qed.

(** **** Listings of a well-formed store *)

Lemma getVideoList_returns (w : World) (page size : Z) (showHiden : bool)
      (metadataId : Z) :
  store_ok w = true ->
  exists vs,
    getVideoList w page size showHiden metadataId = Returned vs
    /\ Forall2 (fun r v => present r = Returned v)
               (paginate size page (eligible showHiden metadataId (videos w)))
               vs.
Proof.
  intros Hok. unfold getVideoList. cbn [truthy_array negb].
  apply process_ok with (nextId w). intros r Hr.
  apply paginate_In, eligible_In in Hr as [Hr _].
  now apply store_ok_rows.
Qed.

Lemma getVideoList_ids (w : World) (page size : Z) (showHiden : bool)
      (metadataId : Z) :
  store_ok w = true ->
  ids_of (getVideoList w page size showHiden metadataId)
  = map Row.id
        (paginate size page (eligible showHiden metadataId (videos w))).
Proof.
  intros Hok.
  destruct (getVideoList_returns w page size showHiden metadataId Hok)
    as (vs & -> & Hall).
  now apply presented_ids.
Qed.

Lemma pages_upto_ids (w : World) (k : nat) (size : Z) (showHiden : bool)
      (metadataId : Z) :
  store_ok w = true -> 0 <= size ->
  List.concat (map ids_of (pages_upto w k size showHiden metadataId))
  = map Row.id (firstn (k * Z.to_nat size)
                       (eligible showHiden metadataId (videos w))).
Proof.
  intros Hok Hsize. unfold pages_upto.
  rewrite <- windows_concat, List.concat_map, !map_map, <- seq_shift, map_map.
  f_equal. apply map_ext. intros p.
  now rewrite getVideoList_ids, paginate_nat.
Qed.

Lemma is_eligible_spec (showHiden : bool) (metadataId : Z) (r : Row.t) :
  is_eligible showHiden metadataId r = true
  <-> (showHiden = false -> Row.isHiden r = 0)
      /\ (metadataId <> 0 -> Row.metadataId r = metadataId).
Proof.
  unfold is_eligible. rewrite andb_true_iff, !orb_true_iff, !Z.eqb_eq.
  split.
  - intros [Hh Hm]. split.
    + intros ->. destruct Hh; [discriminate|assumption].
    + intros Hne. destruct Hm; [contradiction|assumption].
  - intros [Hh Hm]. split.
    + destruct showHiden; auto.
    + destruct (Z.eq_dec metadataId 0); auto.
Qed.

Lemma listed_on_some_page (w : World) (size : Z) (showHiden : bool)
      (metadataId : Z) (r : Row.t) :
  store_ok w = true -> 1 <= size ->
  In r (videos w) -> is_eligible showHiden metadataId r = true ->
  exists page,
    1 <= page
    /\ In (Row.id r)
          (ids_of (getVideoList w page size showHiden metadataId)).
Proof.
  intros Hok Hsize Hin Hel.
  assert (Hall : In r (eligible showHiden metadataId (videos w)))
    by now apply eligible_In.
  destruct (on_some_window (Z.to_nat size) _ r ltac:(lia) Hall) as [p Hp].
  exists (Z.of_nat (S p)). split; [lia|].
  rewrite getVideoList_ids, paginate_nat by (assumption || lia).
  now apply in_map.
Qed.

(** **** The two readers *)

(** [getVideoInfo] ends in the same error whatever the table holds. *)
Lemma getVideoInfo_throws (w : World) (id : Z) :
  getVideoInfo w id = Thrown (ReferenceError "item").
Proof. reflexivity. Qed.

(** The loop of [getVideoList] gives back what [createVideo] was given. *)
Lemma inserted_row_presents (id metaId : Z) (info : list (string * JSON))
      (fileIds : FileIds.t) (now : Z) :
  json_ok (JObj info) = true ->
  json_ok (FileIds.storyboardId fileIds) = true ->
  present (inserted_row id metaId info fileIds now)
  = Returned (VideoInfo.mk id metaId (FileIds.videoId fileIds) false
                           (FileIds.metaId fileIds) (JObj info)
                           (FileIds.storyboardId fileIds) now).
Proof.
  intros Hinfo Hsb. unfold present, inserted_row.
  cbn [Row.id Row.metadataId Row.videoFileId Row.isHiden Row.infoFileId
       Row.videoMetadata Row.storyboardFileIdSet Row.updateTime].
  now rewrite (JSON_parse_stringify _ Hinfo), (JSON_parse_stringify _ Hsb).
Qed.

(** In the table, [unhideVideo] after [hideVideo] leaves the flag at 0. *)
Lemma unhide_after_hide_stored (w : World) (id : Z) (r : Row.t) :
  In r (videos (snd (unhideVideo (snd (hideVideo w id)) id))) ->
  Row.id r = id -> Row.isHiden r = 0.
Proof.
  rewrite unhideVideo_eq. cbn [snd set_videos videos]. intros Hin Hid.
  apply in_map_iff in Hin as (r0 & E & _).
  destruct (Row.id r0 =? id) eqn:E0; subst r; [reflexivity|].
  apply Z.eqb_neq in E0. contradiction.
Qed.

(** **** The invariant is kept *)

Lemma empty_world_ok (l : linker_state) : store_ok (empty_world l) = true.
Proof. reflexivity. Qed.

Lemma row_ok_later (next : Z) (r : Row.t) :
  row_ok next r = true -> row_ok (next + 1) r = true.
Proof.
  unfold row_ok. intros H.
  apply andb_prop in H as [H Hsb]. apply andb_prop in H as [H Hmeta].
  apply andb_prop in H as [H Hflag]. apply andb_prop in H as [Hlo Hhi].
  rewrite Hsb, Hmeta, Hflag, Hlo. apply Z.ltb_lt in Hhi.
  assert (E : (Row.id r <? next + 1) = true) by (apply Z.ltb_lt; lia).
  now rewrite E.
Qed.

Lemma inserted_row_ok (next metaId : Z) (info : list (string * JSON))
      (fileIds : FileIds.t) (now : Z) :
  0 < next ->
  json_ok (JObj info) = true ->
  json_ok (FileIds.storyboardId fileIds) = true ->
  row_ok (next + 1) (inserted_row next metaId info fileIds now) = true.
Proof.
  intros Hn Hinfo Hsb. unfold row_ok, inserted_row.
  cbn [Row.id Row.isHiden Row.videoMetadata Row.storyboardFileIdSet].
  rewrite (JSON_parse_stringify _ Hinfo), (JSON_parse_stringify _ Hsb).
  assert (E1 : (0 <? next) = true) by (apply Z.ltb_lt; lia).
  assert (E2 : (next <? next + 1) = true) by (apply Z.ltb_lt; lia).
  now rewrite E1, E2.
Qed.

Lemma createVideo_keeps_ok (w : World) (info : list (string * JSON))
      (fileIds : FileIds.t) (now : Z) :
  store_ok w = true ->
  json_ok (JObj info) = true ->
  json_ok (FileIds.storyboardId fileIds) = true ->
  store_ok (snd (createVideo w info fileIds now)) = true.
Proof.
  intros Hok Hinfo Hsb.
  destruct (createVideo_table w info fileIds now)
    as [[Ev En]|(metaId & _ & _ & Ev & En)];
    unfold store_ok; rewrite Ev, En; [exact Hok|].
  pose proof (store_ok_rows w Hok) as Hall.
  apply store_ok_inv in Hok as (Hn & Hrows & Hd).
  apply andb_true_intro. split; [apply andb_true_intro; split|].
  - apply Z.ltb_lt. lia.
  - rewrite forallb_app. apply andb_true_intro. split.
    + apply forallb_forall. intros r Hr. apply row_ok_later.
      rewrite forallb_forall in Hrows. now apply Hrows.
    + cbn [forallb]. rewrite andb_true_r. now apply inserted_row_ok.
  - apply NoDup_distinct_ids. rewrite map_app.
    apply distinct_ids_NoDup in Hd. apply NoDup_app. repeat split.
    + exact Hd.
    + repeat constructor. intros [].
    + intros x Hx [<-|[]]. apply in_map_iff in Hx as (r & Er & Hr).
      apply Hall, row_ok_inv in Hr as [Hid _].
      unfold inserted_row in Er. cbn in Er. lia.
Qed.

Lemma set_isHiden_ok (next v : Z) (r : Row.t) :
  v = 0 \/ v = 1 ->
  row_ok next r = true -> row_ok next (Row.set_isHiden v r) = true.
Proof.
  unfold row_ok. intros Hv H.
  apply andb_prop in H as [H Hsb]. apply andb_prop in H as [H Hmeta].
  apply andb_prop in H as [H _]. unfold Row.set_isHiden.
  cbn [Row.id Row.isHiden Row.videoMetadata Row.storyboardFileIdSet].
  rewrite H, Hmeta, Hsb.
  destruct Hv as [->| ->]; reflexivity.
Qed.

Lemma apply_op_keeps_ok (w : World) (op : VisibilityOp) :
  store_ok w = true -> store_ok (apply_op w op) = true.
Proof.
  intros Hok. apply store_ok_inv in Hok as (Hn & Hrows & Hd).
  assert (Hkeep : forall v, v = 0 \/ v = 1 -> forall id,
             store_ok (set_videos
                         (map (fun r => if Row.id r =? id
                                        then Row.set_isHiden v r else r)
                              (videos w)) w) = true).
  { intros v Hv id. unfold store_ok. cbn [set_videos videos nextId].
    apply andb_true_intro. split; [apply andb_true_intro; split|].
    - now apply Z.ltb_lt.
    - rewrite forallb_forall in Hrows |- *. intros r Hr.
      apply in_map_iff in Hr as (r0 & <- & Hr0).
      destruct (Row.id r0 =? id); [apply set_isHiden_ok|]; auto.
    - rewrite map_map.
      erewrite map_ext; [exact Hd|].
      intros r. now destruct (Row.id r =? id). }
  destruct op as [id|id]; unfold apply_op;
    [rewrite hideVideo_eq|rewrite unhideVideo_eq]; cbn [snd];
      apply Hkeep; auto.
Qed.

Lemma reachable_ok (w : World) : reachable w -> store_ok w = true.
Proof.
  induction 1 as [l|w info fileIds now _ IH Hinfo Hsb|w op _ IH].
  - apply empty_world_ok.
  - now apply createVideo_keeps_ok.
  - now apply apply_op_keeps_ok.
Qed.

End VideoFacts.

(** * The properties of the specification *)

Section Claims.
Context {collaborators : Collaborators}.



(** C10. When [create] is called with a hash that matches an existing
    record, the metadata linker is not invoked: no key is added to the calls
    it has received and its state is untouched. *)
Theorem C10_duplicate_skips_linker
        (w : World) (info : list (string * JSON)) (fileIds : FileIds.t)
        (now : Z) (h : JSON) :
  store_ok w = true ->
  assoc "hash" info = Some h ->
  existsb (hash_matches h) (videos w) = true ->
  linkerCalls (snd (createVideo w info fileIds now)) = linkerCalls w
  /\ linker (snd (createVideo w info fileIds now)) = linker w.
Proof.
  intros Hok Hh Hex.
  destruct (createVideo_duplicate w info fileIds now h Hok Hh Hex)
    as (r & _ & _ & E).
  rewrite E. auto.
Qed.

(** C7. [hide (id)] returns true exactly when a record has that id, and
    then every record with that id has [isHiden] = 1 (the record is still
    there, with its flag set); when no record matches it returns false and
    changes nothing.  [unhide] is the same with [isHiden] = 0. *)
Theorem C7_hide_unhide_report_match (w : World) (id : Z) :
  let known := existsb (fun r => Row.id r =? id) (videos w) in
  (fst (hideVideo w id) = known /\ fst (unhideVideo w id) = known)
  /\ (forall r, In r (videos w) -> Row.id r = id ->
       In (Row.set_isHiden 1 r) (videos (snd (hideVideo w id)))
       /\ In (Row.set_isHiden 0 r) (videos (snd (unhideVideo w id))))
  /\ (forall r', Row.id r' = id ->
       (In r' (videos (snd (hideVideo w id))) -> Row.isHiden r' = 1)
       /\ (In r' (videos (snd (unhideVideo w id))) -> Row.isHiden r' = 0))
  /\ (known = false ->
      snd (hideVideo w id) = w /\ snd (unhideVideo w id) = w).
Proof.
  intros known. subst known. rewrite hideVideo_eq, unhideVideo_eq.
  cbn [fst snd set_videos videos].
  split; [split; reflexivity|]. split; [|split].
  - intros r Hr Hid. apply Z.eqb_eq in Hid.
    split; apply in_map_iff; exists r; now rewrite Hid.
  - intros r' Hid. split; intros Hin;
      apply in_map_iff in Hin as (r & E & _);
      (destruct (Row.id r =? id) eqn:Er;
       [now subst r'|subst r'; apply Z.eqb_neq in Er; contradiction]).
  - intros Hnone.
    pose proof (update_no_match (fun r => Row.id r =? id) 1 (videos w) Hnone)
      as H1.
    pose proof (update_no_match (fun r => Row.id r =? id) 0 (videos w) Hnone)
      as H0.
    unfold update_isHiden in H1, H0. cbn [fst] in H1, H0.
    rewrite H1, H0. split; apply set_videos_same.
Qed.

(** C9. [hide] and [unhide] change only [isHiden]: after any sequence of
    them the table holds the same rows in the same places, equal in id,
    metadataId, videoFileId, infoFileId, storyboardFileIdSet, videoMetadata
    and updateTime; and [create] leaves the stored rows as they are and
    adds at most rows whose [isHiden] is 0. *)
Theorem C9_visibility_frame :
  (forall (ops : list VisibilityOp) (w : World),
      Forall2 same_but_isHiden (videos w) (videos (run_ops ops w))
      /\ nextId (run_ops ops w) = nextId w
      /\ linker (run_ops ops w) = linker w)
  /\ (forall (w : World) (info : list (string * JSON)) (fileIds : FileIds.t)
             (now : Z),
        exists added,
          videos (snd (createVideo w info fileIds now)) = videos w ++ added
          /\ Forall (fun r => Row.isHiden r = 0) added).
Proof.
  split.
  - induction ops as [|op ops IH]; intros w.
    + split; [apply Forall2_same_refl|auto].
    + cbn [run_ops fold_left]. fold (run_ops ops (apply_op w op)).
      destruct (IH (apply_op w op)) as (Hrows & Hnext & Hlinker).
      destruct (apply_op_frame w op) as (Hrows1 & Hnext1 & Hlinker1 & _).
      split; [now apply Forall2_same_trans with (videos (apply_op w op))|].
      split; congruence.
  - intros w info fileIds now.
    destruct (createVideo_table w info fileIds now)
      as [[Ev _]|(metaId & _ & _ & Ev & _)].
    + exists []. rewrite Ev, List.app_nil_r. auto.
    + eexists. split; [exact Ev|]. repeat constructor.
Qed.

(** C4. For every page >= 1 and size in [1,50], [list] returns the window
    obtained by skipping (page-1)*size eligible records and taking at most
    size of the remainder, each decoded, in descending-id order (the
    eligible records being the filtered rows, sorted by strictly descending
    id); a page beyond the available data returns the empty sequence, not an
    error; and pages 1..k all return, and their ids one after the other hold
    no duplicate and descend. *)
Theorem C4_list_windows
        (w : World) (page size : Z) (showHiden : bool) (metadataId : Z) :
  store_ok w = true ->
  1 <= page ->
  1 <= size <= 50 ->
  let all := eligible showHiden metadataId (videos w) in
  let window :=
    firstn (Z.to_nat size) (skipn (Z.to_nat ((page - 1) * size)) all) in
  (Permutation all (filter (is_eligible showHiden metadataId) (videos w))
   /\ StronglySorted Z.gt (map Row.id all))
  /\ (exists vs,
        getVideoList w page size showHiden metadataId = Returned vs
        /\ Forall2 (fun r v => present r = Returned v) window vs
        /\ map VideoInfo.id vs = map Row.id window
        /\ Z.of_nat (List.length vs) <= size)
  /\ (Z.of_nat (List.length all) <= (page - 1) * size ->
      getVideoList w page size showHiden metadataId = Returned [])
  /\ (forall k : nat,
        let pages := pages_upto w k size showHiden metadataId in
        Forall (fun o => exists vs, o = Returned vs) pages
        /\ NoDup (List.concat (map ids_of pages))
        /\ StronglySorted Z.gt (List.concat (map ids_of pages))).
Proof.
  intros Hok Hpage Hsize all window.
  assert (Hsorted : StronglySorted Z.gt (map Row.id all)).
  { apply sorted_strict; [apply eligible_sorted|now apply eligible_NoDup]. }
  destruct (getVideoList_returns w page size showHiden metadataId Hok)
    as (vs & Evs & Hall).
  fold all in Hall. unfold paginate in Hall. fold window in Hall.
  split; [split; [apply eligible_perm|exact Hsorted]|].
  split; [|split].
  - exists vs. split; [exact Evs|]. split; [exact Hall|].
    split; [now apply presented_ids|].
    rewrite <- (length_map VideoInfo.id), (presented_ids _ _ Hall).
    rewrite length_map. subst window.
    pose proof (firstn_le_length (Z.to_nat size)
                  (skipn (Z.to_nat ((page - 1) * size)) all)).
    lia.
  - intros Hbeyond. rewrite Evs. f_equal.
    assert (Hw : window = []).
    { subst window. rewrite skipn_all2 by lia. apply firstn_nil. }
    rewrite Hw in Hall. now inversion Hall.
  - intros k pages. subst pages.
    rewrite pages_upto_ids by (assumption || lia). fold all.
    rewrite <- firstn_map. split; [|split].
    + unfold pages_upto. apply Forall_forall. intros o Ho.
      apply in_map_iff in Ho as (p & <- & _).
      destruct (getVideoList_returns w (Z.of_nat p) size showHiden
                                     metadataId Hok) as (vs' & E & _).
      eauto.
    + apply NoDup_firstn. now apply eligible_NoDup.
    + now apply sorted_firstn.
Qed.

(** C5. The filter of [list] is exactly this: a row is eligible when it is
    stored, is not hidden unless hidden rows are asked for, and has the
    given metadata id when one is given; every listed record presents such
    a row and every such row is listed on some page.  After [hide (id)] of
    a stored record no page of the listing without hidden rows contains
    [id], and the listing with hidden rows contains it. *)
Theorem C5_list_filter
        (w : World) (showHiden : bool) (metadataId : Z) :
  store_ok w = true ->
  (forall r,
      In r (eligible showHiden metadataId (videos w))
      <-> In r (videos w)
          /\ (showHiden = false -> Row.isHiden r = 0)
          /\ (metadataId <> 0 -> Row.metadataId r = metadataId))
  /\ (forall page size vs v,
        getVideoList w page size showHiden metadataId = Returned vs ->
        In v vs ->
        exists r,
          In r (videos w) /\ present r = Returned v
          /\ (showHiden = false -> Row.isHiden r = 0)
          /\ (metadataId <> 0 -> Row.metadataId r = metadataId))
  /\ (forall size r,
        1 <= size ->
        In r (videos w) ->
        (showHiden = false -> Row.isHiden r = 0) ->
        (metadataId <> 0 -> Row.metadataId r = metadataId) ->
        exists page,
          1 <= page
          /\ In (Row.id r)
                (ids_of (getVideoList w page size showHiden metadataId)))
  /\ (forall id,
        fst (hideVideo w id) = true ->
        let w' := snd (hideVideo w id) in
        (forall page size,
            ~ In id (ids_of (getVideoList w' page size false metadataId)))
        /\ (forall size,
              1 <= size ->
              exists page,
                1 <= page
                /\ In id (ids_of (getVideoList w' page size true 0)))).
Proof.
  intros Hok. split; [|split; [|split]].
  - intros r. rewrite eligible_In, is_eligible_spec. tauto.
  - intros page size vs v Evs Hv.
    destruct (getVideoList_returns w page size showHiden metadataId Hok)
      as (vs' & Evs' & Hall).
    rewrite Evs in Evs'. injection Evs' as <-.
    destruct (presented_from _ _ v Hall Hv) as (r & Hr & Hpresent).
    apply paginate_In, eligible_In in Hr as [Hin Hel].
    apply is_eligible_spec in Hel. exists r. tauto.
  - intros size r Hsize Hin Hh Hm.
    apply listed_on_some_page; try assumption.
    apply is_eligible_spec. auto.
  - intros id Hknown w'.
    assert (Hok' : store_ok w' = true)
      by apply (apply_op_keeps_ok w (Hide id) Hok).
    subst w'. rewrite hideVideo_eq in *. cbn [fst snd] in *. split.
    + intros page size Hin.
      rewrite getVideoList_ids in Hin by exact Hok'.
      apply in_map_iff in Hin as (r & Hid & Hr).
      apply paginate_In, eligible_In in Hr as [Hr Hel].
      apply is_eligible_spec in Hel as [Hvisible _].
      specialize (Hvisible eq_refl).
      cbn [set_videos videos] in Hr.
      apply in_map_iff in Hr as (r0 & E & _).
      destruct (Row.id r0 =? id) eqn:E0; subst r.
      * discriminate Hvisible.
      * apply Z.eqb_neq in E0. contradiction.
    + intros size Hsize.
      apply existsb_exists in Hknown as (r0 & Hr0 & Hid0).
      destruct (listed_on_some_page _ size true 0 (Row.set_isHiden 1 r0)
                                    Hok' Hsize) as (page & Hpage & Hin).
      * cbn [set_videos videos]. apply in_map_iff. exists r0.
        now rewrite Hid0.
      * reflexivity.
      * exists page. split; [exact Hpage|].
        apply Z.eqb_eq in Hid0. unfold Row.set_isHiden in Hin.
        cbn [Row.id] in Hin. now rewrite Hid0 in Hin.
Qed.

End Claims.

(** * The reader by id *)

(** C6. After [create] of a fresh item, [getById] of the returned id should
    give a record whose decoded fields equal the inputs.  Here the first
    item is created in the empty table under id 1 and its row decodes to
    the inputs in the listing, but [getVideoInfo 1] throws: it reads
    [item.isHiden] where no [item] is bound. *)
Theorem C6_getVideoInfo_throws_after_create :
  let info := sample_info "ABC" "001" "h1" in
  let created :=
    createVideo (empty_world (collaborators := sample) []) info sample_files
                1000 in
  fst created = Returned (Some 1)
  /\ getVideoList (snd created) 1 20 false 0
     = Returned [VideoInfo.mk 1 1 12 false 11 (JObj info)
                              (JArr [JNum 21; JNum 22]) 1000]
  /\ getVideoInfo (snd created) 1 = Thrown (ReferenceError "item").
Proof. vm_compute. auto. Qed.

(** C8. After [hide (id)] and [unhide (id)] of a stored record, [getById]
    should report [isHidden] = false.  Here record 2 of three is hidden and
    shown again, the flag in the table goes 0, 1, 0, and [getVideoInfo 2]
    throws for want of a binding of [item]. *)
Theorem C8_getVideoInfo_throws_after_unhide :
  let hidden := snd (hideVideo sample_world 2) in
  let shown := snd (unhideVideo hidden 2) in
  map Row.isHiden (videos sample_world) = [0; 0; 0]
  /\ map Row.isHiden (videos hidden) = [0; 1; 0]
  /\ map Row.isHiden (videos shown) = [0; 0; 0]
  /\ getVideoInfo shown 2 = Thrown (ReferenceError "item").
Proof. vm_compute. auto. Qed.

(** * The properties at the sample catalogue *)

#[local] Existing Instance sample.


Lemma C10_witness :
  let w := sample_world in
  let info := sample_info "QQQ" "009" "h3" in
  store_ok w = true
  /\ assoc "hash" info = Some (JStr "h3")
  /\ existsb (hash_matches (JStr "h3")) (videos w) = true
  /\ linkerCalls (snd (createVideo w info sample_files 4000)) = linkerCalls w
  /\ linker (snd (createVideo w info sample_files 4000)) = linker w.
Proof.
  intros w info.
  split; [vm_compute; reflexivity|].
  split; [reflexivity|].
  split; [vm_compute; reflexivity|].
  apply (C10_duplicate_skips_linker
           (collaborators := sample) w info sample_files 4000 (JStr "h3"));
    vm_compute; reflexivity.
Defined.


Lemma C4_witness :
  let w := sample_world in
  store_ok w = true
  /\ 1 <= 2
  /\ 1 <= 2 <= 50
  /\ (exists vs,
        getVideoList w 2 2 false 0 = Returned vs
        /\ map VideoInfo.id vs = [1])
  /\ getVideoList w 3 2 false 0 = Returned [].
Proof.
  intros w.
  assert (Hok : store_ok w = true) by (vm_compute; reflexivity).
  split; [exact Hok|]. split; [lia|]. split; [lia|].
  split.
  - destruct (C4_list_windows (collaborators := sample) w 2 2 false 0 Hok
                              ltac:(lia) ltac:(lia))
      as (_ & (vs & E & _ & Hids & _) & _).
    exists vs. split; [exact E|]. exact Hids.
  - apply (C4_list_windows (collaborators := sample) w 3 2 false 0 Hok
                           ltac:(lia) ltac:(lia)).
    vm_compute. discriminate.
Defined.

Lemma C5_witness :
  let w := sample_world in
  let w' := snd (hideVideo w 2) in
  store_ok w = true
  /\ (forall page size,
        ~ In 2 (ids_of (getVideoList w' page size false 0)))
  /\ (forall size,
        1 <= size ->
        exists page,
          1 <= page /\ In 2 (ids_of (getVideoList w' page size true 0))).
Proof.
  intros w w'.
  assert (Hok : store_ok w = true) by (vm_compute; reflexivity).
  split; [exact Hok|].
  apply (C5_list_filter (collaborators := sample) w false 0 Hok).
  vm_compute. reflexivity.
Defined.

(** * Further facts about the catalogue *)

Section MoreVideoFacts.
Context {collaborators : Collaborators}.

(** **** The hash queries on a well-formed table *)

Lemma hash_condition_matches (next : Z) (h : JSON) (r : Row.t) :
  row_ok next r = true -> hash_condition h r = Returned (hash_matches h r).
Proof.
  intros Hr. destruct (hash_condition_total next h r Hr) as [b Hb].
  unfold hash_matches. rewrite Hb. now destruct b.
Qed.

Lemma first_by_hash_find (next : Z) (h : JSON) (rows : list Row.t) :
  forallb (row_ok next) rows = true ->
  first_by_hash h rows = Returned (find (hash_matches h) rows).
Proof.
  induction rows as [|r rows IH]; intros Hok; [reflexivity|].
  cbn [forallb] in Hok. apply andb_prop in Hok as [Hr Hok].
  cbn [first_by_hash find].
  rewrite (hash_condition_matches next h r Hr).
  destruct (hash_matches h r); [reflexivity|now apply IH].
Qed.

Lemma count_by_hash_filter (next : Z) (h : JSON) (rows : list Row.t) :
  forallb (row_ok next) rows = true ->
  count_by_hash h rows
  = Returned (Z.of_nat (List.length (filter (hash_matches h) rows))).
Proof.
  induction rows as [|r rows IH]; intros Hok; [reflexivity|].
  cbn [forallb] in Hok. apply andb_prop in Hok as [Hr Hok].
  cbn [count_by_hash filter].
  rewrite (hash_condition_matches next h r Hr), (IH Hok).
  destruct (hash_matches h r); [|reflexivity].
  cbn [List.length]. f_equal. lia.
Qed.

Lemma filter_length_existsb {A : Type} (f : A -> bool) (l : list A) :
  negb (Z.of_nat (List.length (filter f l)) =? 0) = existsb f l.
Proof.
  induction l as [|x l IH]; [reflexivity|].
  cbn [filter existsb]. destruct (f x); [|exact IH].
  cbn [orb List.length]. apply negb_true_iff, Z.eqb_neq. lia.
Qed.

Lemma isExistByHash_existsb (w : World) (h : JSON) :
  store_ok w = true ->
  isExistByHash w (Some h) = Returned (existsb (hash_matches h) (videos w)).
Proof.
  intros Hok. apply store_ok_inv in Hok as (_ & Hrows & _).
  unfold isExistByHash. rewrite (count_by_hash_filter _ h _ Hrows).
  now rewrite filter_length_existsb.
Qed.

Lemma find_existsb {A : Type} (f : A -> bool) (l : list A) :
  existsb f l = match find f l with Some _ => true | None => false end.
Proof.
  induction l as [|x l IH]; [reflexivity|].
  cbn [existsb find]. now destruct (f x).
Qed.

(** [createVideo] on a well-formed table, by the first row that matches. *)
Lemma createVideo_cases (w : World) (info : list (string * JSON))
      (fileIds : FileIds.t) (now : Z) (h : JSON) :
  store_ok w = true ->
  assoc "hash" info = Some h ->
  createVideo w info fileIds now =
  match find (hash_matches h) (videos w) with
  | Some r => (Returned (Some (Row.id r)), w)
  | None =>
      let '(metaId, linker') := getMetadataId (JAVID info) (linker w) in
      let calls := (linkerCalls w ++ [JAVID info])%list in
      if metaId =? 0
      then (Returned None, mkWorld (videos w) (nextId w) linker' calls)
      else (Returned (Some (nextId w)),
            mkWorld (videos w
                     ++ [inserted_row (nextId w) metaId info fileIds now])%list
                    (nextId w + 1) linker' calls)
  end.
Proof.
  intros Hok Hh.
  pose proof (store_ok_inv w Hok) as (_ & Hrows & _).
  pose proof (first_by_hash_find _ h _ Hrows) as Hfirst.
  destruct (find (hash_matches h) (videos w)) as [r|] eqn:Ef.
  - unfold createVideo. rewrite Hh, Hfirst.
    apply find_some in Ef as [Hin _].
    now rewrite (row_ok_id_truthy _ _ (store_ok_rows w Hok r Hin)).
  - exact (createVideo_fresh w info fileIds now h Hh Hfirst).
Qed.

(** The row written from [info] matches the hash of [info] when the backend
    finds that hash equal to itself. *)
Lemma inserted_row_matches (id metaId : Z) (info : list (string * JSON))
      (fileIds : FileIds.t) (now : Z) (h : JSON) :
  json_ok (JObj info) = true ->
  assoc "hash" info = Some h ->
  hash_matches h (inserted_row id metaId info fileIds now) = sql_equal h h.
Proof.
  intros Hinfo Hh.
  unfold hash_matches, hash_condition, json_extract_hash, inserted_row.
  cbn [Row.videoMetadata]. rewrite (JSON_parse_stringify _ Hinfo), Hh.
  now destruct (sql_equal h h).
Qed.


Lemma find_app_some {A : Type} (f : A -> bool) (l l' : list A) (x : A) :
  find f l = Some x -> find f (l ++ l')%list = Some x.
Proof.
  induction l as [|y l IH]; [discriminate|].
  cbn [find app]. destruct (f y); [auto|exact IH].
Qed.

(** **** Lookup by info file *)

Lemma where_head_find (column : Row.t -> Z) (value : Z) (rows : list Row.t) :
  match where_ column value rows with
  | r :: _ => Some r
  | [] => None
  end = find (fun r => column r =? value) rows.
Proof.
  unfold where_. induction rows as [|r rows IH]; [reflexivity|].
  cbn [filter find]. now destruct (column r =? value).
Qed.

Lemma getVideoIdByInfoFileId_find (w : World) (f : Z) :
  store_ok w = true ->
  getVideoIdByInfoFileId w f =
  match find (fun r => Row.infoFileId r =? f) (videos w) with
  | Some r => Row.id r
  | None => 0
  end.
Proof.
  intros Hok. unfold getVideoIdByInfoFileId.
  pose proof (where_head_find Row.infoFileId f (videos w)) as H.
  destruct (where_ Row.infoFileId f (videos w)) as [|r rest];
    rewrite <- H; [reflexivity|].
  symmetry in H. apply find_some in H as [Hin _].
  now rewrite (row_ok_id_truthy _ _ (store_ok_rows w Hok r Hin)).
Qed.

(** **** Pages with a damaged row *)

Lemma present_decodable (r : Row.t) :
  if decodable r then exists v, present r = Returned v
  else present r = Thrown SyntaxError.
Proof.
  unfold decodable, present.
  destruct (JSON_parse (Row.videoMetadata r)); cbn [is_value andb];
    [|reflexivity].
  destruct (JSON_parse (Row.storyboardFileIdSet r)); cbn [is_value];
    [eauto|reflexivity].
Qed.

Lemma not_json_parse (s : string) : not_json s = true -> JSON_parse s = None.
Proof.
  unfold not_json, JSON_parse. intros H.
  destruct (List.length (list_ascii_of_string s)) as [|d]; [reflexivity|].
  cbn [parse_value].
  destruct (skip_ws (list_ascii_of_string s)) as [|c r]; [reflexivity|].
  apply negb_true_iff in H.
  destruct c as [[] [] [] [] [] [] [] []]; try discriminate H; reflexivity.
Qed.

Lemma damaged_not_decodable (r : Row.t) :
  damaged r = true -> decodable r = false.
Proof.
  unfold damaged, decodable. intros H. apply orb_prop in H as [H|H];
    rewrite (not_json_parse _ H); cbn [is_value andb];
      [reflexivity|apply andb_false_r].
Qed.

Lemma process_decodable (rows : list Row.t) :
  if forallb decodable rows
  then exists vs, process rows = Returned vs
                  /\ Forall2 (fun r v => present r = Returned v) rows vs
  else process rows = Thrown SyntaxError.
Proof.
  induction rows as [|r rows IH].
  - exists []. split; [reflexivity|constructor].
  - cbn [forallb process]. pose proof (present_decodable r) as Hr.
    destruct (decodable r); cbn [andb].
    + destruct Hr as [v Hv]. rewrite Hv.
      destruct (forallb decodable rows).
      * destruct IH as (vs & -> & Hall). exists (v :: vs).
        split; [reflexivity|now constructor].
      * now rewrite IH.
    + now rewrite Hr.
Qed.

(** **** Visibility operations, row by row *)

Lemma apply_op_eq (w : World) (op : VisibilityOp) :
  apply_op w op
  = set_videos
      (map (fun r => if Row.id r =? target op
                     then Row.set_isHiden
                            (match op with Hide _ => 1 | Unhide _ => 0 end) r
                     else r) (videos w)) w.
Proof.
  destruct op as [id|id]; unfold apply_op;
    [rewrite hideVideo_eq|rewrite unhideVideo_eq]; reflexivity.
Qed.

Lemma existsb_id_update (id id' v : Z) (rows : list Row.t) :
  existsb (fun r => Row.id r =? id)
          (map (fun r => if Row.id r =? id' then Row.set_isHiden v r else r)
               rows)
  = existsb (fun r => Row.id r =? id) rows.
Proof.
  induction rows as [|r rows IH]; [reflexivity|].
  cbn [map existsb]. rewrite IH. now destruct (Row.id r =? id').
Qed.

Lemma update_twice (id v v' : Z) (rows : list Row.t) :
  map (fun r => if Row.id r =? id then Row.set_isHiden v' r else r)
      (map (fun r => if Row.id r =? id then Row.set_isHiden v r else r) rows)
  = map (fun r => if Row.id r =? id then Row.set_isHiden v' r else r) rows.
Proof.
  rewrite map_map. apply map_ext. intros r.
  assert (Hid : forall (c : bool),
             Row.id (if c then Row.set_isHiden v r else r) = Row.id r)
    by (intros []; reflexivity).
  rewrite Hid. now destruct (Row.id r =? id).
Qed.

Lemma update_swap (id1 id2 v1 v2 : Z) (rows : list Row.t) :
  id1 <> id2 ->
  map (fun r => if Row.id r =? id2 then Row.set_isHiden v2 r else r)
      (map (fun r => if Row.id r =? id1 then Row.set_isHiden v1 r else r)
           rows)
  = map (fun r => if Row.id r =? id1 then Row.set_isHiden v1 r else r)
        (map (fun r => if Row.id r =? id2 then Row.set_isHiden v2 r else r)
             rows).
Proof.
  intros Hne. rewrite !map_map. apply map_ext. intros r.
  assert (Hid : forall (c : bool) v,
             Row.id (if c then Row.set_isHiden v r else r) = Row.id r)
    by (intros [] v; reflexivity).
  rewrite !Hid.
  destruct (Row.id r =? id1) eqn:E1, (Row.id r =? id2) eqn:E2;
    try reflexivity.
  apply Z.eqb_eq in E1, E2. congruence.
Qed.

Lemma hash_condition_set_isHiden (h : JSON) (v : Z) (r : Row.t) :
  hash_condition h (Row.set_isHiden v r) = hash_condition h r.
Proof. reflexivity. Qed.

Lemma count_by_hash_update (h : JSON) (id v : Z) (rows : list Row.t) :
  count_by_hash h
    (map (fun r => if Row.id r =? id then Row.set_isHiden v r else r) rows)
  = count_by_hash h rows.
Proof.
  induction rows as [|r rows IH]; [reflexivity|].
  cbn [map count_by_hash]. rewrite IH.
  now destruct (Row.id r =? id).
Qed.

Lemma where_infoFileId_update (f id v : Z) (rows : list Row.t) :
  where_ Row.infoFileId f
         (map (fun r => if Row.id r =? id then Row.set_isHiden v r else r)
              rows)
  = map (fun r => if Row.id r =? id then Row.set_isHiden v r else r)
        (where_ Row.infoFileId f rows).
Proof.
  unfold where_. induction rows as [|r rows IH]; [reflexivity|].
  cbn [map filter].
  assert (E : Row.infoFileId
                (if Row.id r =? id then Row.set_isHiden v r else r)
              = Row.infoFileId r) by now destruct (Row.id r =? id).
  rewrite E. destruct (Row.infoFileId r =? f); cbn [map]; now rewrite IH.
Qed.

(** **** The newest row comes first *)

Lemma orderBy_newest (l : list Row.t) (r : Row.t) :
  (forall x, In x l -> Row.id x < Row.id r) ->
  orderBy_id_desc (l ++ [r])%list = r :: orderBy_id_desc l.
Proof.
  induction l as [|x l IH]; intros Hlt; [reflexivity|].
  cbn [app orderBy_id_desc fold_right].
  fold (orderBy_id_desc (l ++ [r])%list). fold (orderBy_id_desc l).
  rewrite IH by (intros y Hy; apply Hlt; now right).
  cbn [insert_desc].
  assert (E : (Row.id r <=? Row.id x) = false).
  { apply Z.leb_gt. apply Hlt. now left. }
  now rewrite E.
Qed.

(** **** Listing and visibility *)

Lemma insert_desc_map (f : Row.t -> Row.t) (r : Row.t) (l : list Row.t) :
  (forall x, Row.id (f x) = Row.id x) ->
  insert_desc (f r) (map f l) = map f (insert_desc r l).
Proof.
  intros Hid. induction l as [|x l IH]; [reflexivity|].
  cbn [map insert_desc]. rewrite !Hid.
  destruct (Row.id x <=? Row.id r); [reflexivity|].
  cbn [map]. now rewrite IH.
Qed.

Lemma orderBy_map (f : Row.t -> Row.t) (l : list Row.t) :
  (forall x, Row.id (f x) = Row.id x) ->
  orderBy_id_desc (map f l) = map f (orderBy_id_desc l).
Proof.
  intros Hid. induction l as [|x l IH]; [reflexivity|].
  cbn [map orderBy_id_desc fold_right].
  fold (orderBy_id_desc (map f l)). fold (orderBy_id_desc l).
  rewrite IH. now apply insert_desc_map.
Qed.

Lemma filter_map_same {A : Type} (p : A -> bool) (f : A -> A) (l : list A) :
  (forall x, p (f x) = p x) ->
  filter p (map f l) = map f (filter p l).
Proof.
  intros Hp. induction l as [|x l IH]; [reflexivity|].
  cbn [map filter]. rewrite Hp. destruct (p x); cbn [map]; now rewrite IH.
Qed.

Lemma eligible_all_update (metadataId id v : Z) (rows : list Row.t) :
  eligible true metadataId
           (map (fun r => if Row.id r =? id then Row.set_isHiden v r else r)
                rows)
  = map (fun r => if Row.id r =? id then Row.set_isHiden v r else r)
        (eligible true metadataId rows).
Proof.
  rewrite !eligible_filter.
  rewrite filter_map_same, orderBy_map; [reflexivity| |];
    intros x; now destruct (Row.id x =? id).
Qed.

(** **** Runs keep the invariants *)

Lemma step_keeps_ok (w : World) (o : Operation) :
  store_ok w = true -> operation_ok o = true -> store_ok (step w o) = true.
Proof.
  intros Hok Ho. destruct o as [info fileIds now|op]; cbn [step].
  - cbn [operation_ok] in Ho. apply andb_prop in Ho as [Hinfo Hsb].
    now apply createVideo_keeps_ok.
  - now apply apply_op_keeps_ok.
Qed.

Lemma run_keeps_ok (ops : list Operation) (w : World) :
  store_ok w = true -> forallb operation_ok ops = true ->
  store_ok (run ops w) = true.
Proof.
  revert w. induction ops as [|o ops IH]; intros w Hok Hops; [exact Hok|].
  cbn [forallb] in Hops. apply andb_prop in Hops as [Ho Hops].
  cbn [run fold_left]. apply IH; [now apply step_keeps_ok|exact Hops].
Qed.

Lemma hashes_distinct_snoc (rows : list Row.t) (row : Row.t) (h : JSON) :
  json_extract_hash row = Returned (Some h) ->
  hashes_distinct (rows ++ [row])%list
  = hashes_distinct rows && negb (existsb (hash_matches h) rows).
Proof.
  intros Hrow. induction rows as [|r rows IH].
  - reflexivity.
  - cbn [app hashes_distinct existsb]. rewrite IH, forallb_app.
    cbn [forallb]. rewrite Hrow, negb_orb.
    destruct (forallb _ rows), (hashes_distinct rows), (hash_matches h r),
      (existsb (hash_matches h) rows); reflexivity.
Qed.

Lemma forallb_map_ext {A B : Type} (p : B -> bool) (q : A -> bool)
      (f : A -> B) (l : list A) :
  (forall x, p (f x) = q x) -> forallb p (map f l) = forallb q l.
Proof.
  intros H. induction l as [|x l IH]; [reflexivity|].
  cbn [map forallb]. now rewrite H, IH.
Qed.

Lemma hashes_distinct_update (id v : Z) (rows : list Row.t) :
  hashes_distinct
    (map (fun r => if Row.id r =? id then Row.set_isHiden v r else r) rows)
  = hashes_distinct rows.
Proof.
  induction rows as [|r rows IH]; [reflexivity|].
  cbn [map hashes_distinct]. rewrite IH. f_equal.
  apply forallb_map_ext. intros r'.
  assert (E : json_extract_hash
                (if Row.id r' =? id then Row.set_isHiden v r' else r')
              = json_extract_hash r') by now destruct (Row.id r' =? id).
  rewrite E. destruct (json_extract_hash r') as [[h'|]|]; try reflexivity.
  now destruct (Row.id r =? id).
Qed.

Lemma step_keeps_distinct (w : World) (o : Operation) :
  store_ok w = true -> operation_ok o = true ->
  hashes_distinct (videos w) = true ->
  hashes_distinct (videos (step w o)) = true.
Proof.
  intros Hok Ho Hd. destruct o as [info fileIds now|op]; cbn [step].
  - cbn [operation_ok] in Ho. apply andb_prop in Ho as [Hinfo _].
    destruct (assoc "hash" info) as [h|] eqn:Hh;
      [|unfold createVideo; now rewrite Hh].
    rewrite (createVideo_cases w info fileIds now h Hok Hh).
    destruct (find (hash_matches h) (videos w)) eqn:Ef; [exact Hd|].
    destruct (getMetadataId (JAVID info) (linker w)) as [metaId linker'].
    destruct (metaId =? 0); cbn [snd videos]; [exact Hd|].
    rewrite (hashes_distinct_snoc _ _ h), Hd, find_existsb, Ef;
      [reflexivity|].
    unfold json_extract_hash, inserted_row. cbn [Row.videoMetadata].
    now rewrite (JSON_parse_stringify _ Hinfo), Hh.
  - rewrite apply_op_eq. cbn [set_videos videos].
    now rewrite hashes_distinct_update.
Qed.

End MoreVideoFacts.

(** * Further properties of the catalogue *)

Section Extras.
Context {collaborators : Collaborators}.

(** X1. On a well-formed table [getVideoIdByInfoFileId] returns 0 exactly
    when no stored row references the info file, and otherwise the id of
    the first stored row that does. *)
Theorem X1_lookup_by_info_file (w : World) (f : Z) :
  store_ok w = true ->
  (getVideoIdByInfoFileId w f = 0
   <-> forall r, In r (videos w) -> Row.infoFileId r <> f)
  /\ (getVideoIdByInfoFileId w f <> 0 ->
      exists r,
        find (fun r => Row.infoFileId r =? f) (videos w) = Some r
        /\ In r (videos w)
        /\ Row.infoFileId r = f
        /\ getVideoIdByInfoFileId w f = Row.id r).
Proof.
  intros Hok. rewrite (getVideoIdByInfoFileId_find w f Hok).
  destruct (find (fun r => Row.infoFileId r =? f) (videos w)) as [r|] eqn:Ef.
  - pose proof (find_some _ _ Ef) as [Hin Hf]. apply Z.eqb_eq in Hf.
    pose proof (store_ok_rows w Hok r Hin) as Hr.
    apply row_ok_inv in Hr as [Hid _]. split.
    + split; [lia|]. intros Hnone. exfalso. now apply (Hnone r).
    + intros _. exists r. auto.
  - split; [|intros H; now contradiction H].
    split; [|reflexivity]. intros _ r Hin E.
    pose proof (find_none _ _ Ef r Hin) as Hf. apply Z.eqb_neq in Hf.
    contradiction.
Qed.



(** X4. Once [createVideo] has returned an id for JSON data whose hash the
    backend finds equal to itself, [isExistByHash] of that hash is true and
    the row of the returned id satisfies the duplicate condition. *)
Theorem X4_exists_after_create
        (w : World) (info : list (string * JSON)) (fileIds : FileIds.t)
        (now : Z) (h : JSON) (i : Z) :
  store_ok w = true ->
  json_ok (JObj info) = true ->
  json_ok (FileIds.storyboardId fileIds) = true ->
  assoc "hash" info = Some h ->
  sql_equal h h = true ->
  fst (createVideo w info fileIds now) = Returned (Some i) ->
  isExistByHash (snd (createVideo w info fileIds now)) (Some h)
  = Returned true
  /\ existsb (fun r => (Row.id r =? i) && hash_matches h r)
             (videos (snd (createVideo w info fileIds now))) = true.
Proof.
  intros Hok Hinfo Hsb Hh Hrefl Hret.
  pose proof (createVideo_keeps_ok w info fileIds now Hok Hinfo Hsb) as Hok'.
  rewrite (isExistByHash_existsb _ h Hok').
  assert (Hrow : existsb (fun r => (Row.id r =? i) && hash_matches h r)
                         (videos (snd (createVideo w info fileIds now)))
                 = true).
  { revert Hret. rewrite (createVideo_cases w info fileIds now h Hok Hh).
    destruct (find (hash_matches h) (videos w)) as [r|] eqn:Ef.
    - cbn [fst snd]. intros Hret. injection Hret as <-.
      apply find_some in Ef as [Hin Hm]. apply existsb_exists.
      exists r. now rewrite Z.eqb_refl, Hm.
    - destruct (getMetadataId (JAVID info) (linker w)) as [metaId linker'].
      destruct (metaId =? 0); cbn [fst snd videos]; intros Hret;
        [discriminate|]. injection Hret as <-.
      rewrite existsb_app. apply orb_true_iff. right. cbn [existsb].
      rewrite (inserted_row_matches _ _ _ _ _ h Hinfo Hh), Hrefl.
      unfold inserted_row. cbn [Row.id]. now rewrite Z.eqb_refl. }
  split; [|exact Hrow]. f_equal.
  apply existsb_exists in Hrow as (r & Hin & Hr).
  apply andb_prop in Hr as [_ Hm]. apply existsb_exists. eauto.
Qed.


(** X6. [createVideo] adds a row to a well-formed table only when no stored
    row has the hash and the linker answered an id other than 0; the row
    goes last, under an id above every stored id, which is the id
    returned, and the auto-increment counter moves on by one. *)
Theorem X6_insert_only_when_absent
        (w : World) (info : list (string * JSON)) (fileIds : FileIds.t)
        (now : Z) :
  store_ok w = true ->
  (List.length (videos w)
   < List.length (videos (snd (createVideo w info fileIds now))))%nat ->
  exists h metaId,
    assoc "hash" info = Some h
    /\ isExistByHash w (Some h) = Returned false
    /\ fst (getMetadataId (JAVID info) (linker w)) = metaId
    /\ metaId <> 0
    /\ fst (createVideo w info fileIds now) = Returned (Some (nextId w))
    /\ videos (snd (createVideo w info fileIds now))
       = (videos w ++ [inserted_row (nextId w) metaId info fileIds now])%list
    /\ (forall r, In r (videos w) -> Row.id r < nextId w)
    /\ nextId (snd (createVideo w info fileIds now)) = nextId w + 1.
Proof.
  intros Hok Hgrew.
  destruct (assoc "hash" info) as [h|] eqn:Hh;
    [|unfold createVideo in Hgrew; rewrite Hh in Hgrew;
      cbn [snd] in Hgrew; lia].
  revert Hgrew. rewrite (createVideo_cases w info fileIds now h Hok Hh).
  pose proof (isExistByHash_existsb w h Hok) as Hex.
  rewrite find_existsb in Hex.
  destruct (find (hash_matches h) (videos w)); cbn [snd];
    [intros; lia|].
  destruct (getMetadataId (JAVID info) (linker w)) as [metaId linker'].
  destruct (metaId =? 0) eqn:E; cbn [fst snd videos nextId];
    [intros; lia|]. intros _.
  apply Z.eqb_neq in E. exists h, metaId.
  repeat (split; [auto; fail|]). split; [|reflexivity].
  intros r Hr. now apply (store_ok_rows w Hok), row_ok_inv in Hr.
Qed.

(** X8. [getVideoList] has no handler around [JSON.parse]: it returns when
    both structured columns of every row of the requested page decode, and
    it throws [SyntaxError] when a column of one row of that page is no
    JSON by its first character (an empty text, or one that starts like no
    JSON value).  Such a row fails the pages it is on and no page whose rows
    all decode. *)
Theorem X8_list_fails_on_damaged_row
        (w : World) (page size : Z) (showHiden : bool) (metadataId : Z) :
  let rows := paginate size page (eligible showHiden metadataId (videos w)) in
  (forallb decodable rows = true ->
   exists vs,
     getVideoList w page size showHiden metadataId = Returned vs
     /\ map VideoInfo.id vs = map Row.id rows)
  /\ (existsb damaged rows = true ->
      getVideoList w page size showHiden metadataId = Thrown SyntaxError).
Proof.
  intros rows. unfold getVideoList. cbn [truthy_array negb]. fold rows.
  pose proof (process_decodable rows) as H. split.
  - intros Hall. rewrite Hall in H. destruct H as (vs & E & Hvs).
    exists vs. split; [exact E|now apply presented_ids].
  - intros Hdamaged.
    assert (Hnot : forallb decodable rows = false).
    { apply existsb_exists in Hdamaged as (r & Hr & Hd).
      destruct (forallb decodable rows) eqn:E; [|reflexivity].
      rewrite forallb_forall in E. specialize (E r Hr).
      now rewrite (damaged_not_decodable r Hd) in E. }
    now rewrite Hnot in H.
Qed.

(** X9. On one id the last visibility call decides: [hideVideo] or
    [unhideVideo] after either of them gives the result and the world that
    the last call alone gives; in particular hiding a hidden record again
    still returns true and changes nothing more. *)
Theorem X9_visibility_last_call_decides (w : World) (id : Z) :
  hideVideo (snd (hideVideo w id)) id = hideVideo w id
  /\ hideVideo (snd (unhideVideo w id)) id = hideVideo w id
  /\ unhideVideo (snd (hideVideo w id)) id = unhideVideo w id
  /\ unhideVideo (snd (unhideVideo w id)) id = unhideVideo w id.
Proof.
  rewrite !hideVideo_eq, !unhideVideo_eq. cbn [snd set_videos videos nextId
    linker linkerCalls].
  rewrite !existsb_id_update, !update_twice. unfold set_videos.
  cbn [nextId linker linkerCalls]. auto.
Qed.

(** X10. Visibility calls on different ids commute: either order leaves
    the same world. *)
Theorem X10_visibility_commutes (w : World) (op1 op2 : VisibilityOp) :
  target op1 <> target op2 ->
  apply_op (apply_op w op1) op2 = apply_op (apply_op w op2) op1.
Proof.
  intros Hne. rewrite !apply_op_eq. unfold set_videos.
  cbn [videos nextId linker linkerCalls]. f_equal.
  now apply update_swap.
Qed.

(** X11. A visibility call leaves every row of another id exactly as it
    was, and changes no answer of [getVideoIdByInfoFileId] or
    [isExistByHash]. *)
Theorem X11_visibility_keeps_lookups (w : World) (op : VisibilityOp) :
  Forall2 (fun r r' => Row.id r <> target op -> r' = r)
          (videos w) (videos (apply_op w op))
  /\ (forall f, getVideoIdByInfoFileId (apply_op w op) f
                = getVideoIdByInfoFileId w f)
  /\ (forall hash, isExistByHash (apply_op w op) hash
                   = isExistByHash w hash).
Proof.
  rewrite apply_op_eq. cbn [set_videos videos]. split; [|split].
  - induction (videos w) as [|r rows IH]; cbn [map]; constructor;
      [|exact IH].
    intros Hne. apply Z.eqb_neq in Hne. now rewrite Hne.
  - intros f. unfold getVideoIdByInfoFileId. cbn [set_videos videos].
    rewrite where_infoFileId_update.
    destruct (where_ Row.infoFileId f (videos w)) as [|r rest];
      [reflexivity|].
    cbn [map]. now destruct (Row.id r =? target op).
  - intros [h|]; [|reflexivity]. unfold isExistByHash.
    cbn [set_videos videos].
    now rewrite count_by_hash_update.
Qed.

(** X12. The record [createVideo] has just inserted heads the first page
    of the unfiltered listing, hidden rows included or not, and is
    presented with the values given to [createVideo]: the id returned, the
    linker's metadata id, the file ids, the item and the storyboard set
    decoded, the time of the call, and not hidden. *)
Theorem X12_newest_first
        (w : World) (info : list (string * JSON)) (fileIds : FileIds.t)
        (now size : Z) (showHiden : bool) :
  store_ok w = true ->
  json_ok (JObj info) = true ->
  json_ok (FileIds.storyboardId fileIds) = true ->
  (List.length (videos w)
   < List.length (videos (snd (createVideo w info fileIds now))))%nat ->
  1 <= size ->
  exists rest,
    fst (createVideo w info fileIds now) = Returned (Some (nextId w))
    /\ getVideoList (snd (createVideo w info fileIds now)) 1 size showHiden 0
       = Returned
           (VideoInfo.mk (nextId w)
                         (fst (getMetadataId (JAVID info) (linker w)))
                         (FileIds.videoId fileIds) false
                         (FileIds.metaId fileIds) (JObj info)
                         (FileIds.storyboardId fileIds) now :: rest).
Proof.
  intros Hok Hinfo Hsb Hgrew Hsize.
  pose proof (createVideo_keeps_ok w info fileIds now Hok Hinfo Hsb) as Hok'.
  pose proof (store_ok_rows _ Hok') as Hrows'.
  pose proof (store_ok_rows _ Hok) as Hrows.
  destruct (assoc "hash" info) as [h|] eqn:Hh;
    [|unfold createVideo in Hgrew; rewrite Hh in Hgrew;
      cbn [snd] in Hgrew; lia].
  revert Hgrew Hok' Hrows'.
  rewrite (createVideo_cases w info fileIds now h Hok Hh).
  destruct (find (hash_matches h) (videos w)); cbn [snd];
    [intros; lia|].
  destruct (getMetadataId (JAVID info) (linker w)) as [metaId linker'].
  destruct (metaId =? 0); cbn [fst snd videos nextId];
    [intros; lia|]. intros _ Hok' Hrows'.
  set (row := inserted_row (nextId w) metaId info fileIds now) in *.
  assert (Hall : eligible showHiden 0 (videos w ++ [row])%list
                 = row :: eligible showHiden 0 (videos w)).
  { rewrite !eligible_filter, filter_app. cbn [filter].
    assert (E : is_eligible showHiden 0 row = true)
      by (unfold is_eligible; cbn; now rewrite orb_true_r).
    rewrite E. apply orderBy_newest. intros x Hx.
    apply filter_In in Hx as [Hx _]. apply Hrows, row_ok_inv in Hx.
    unfold row, inserted_row. cbn [Row.id]. lia. }
  unfold getVideoList. cbn [truthy_array negb videos]. rewrite Hall.
  unfold paginate. replace ((1 - 1) * size) with 0 by lia.
  cbn [Z.to_nat skipn].
  destruct (Z.to_nat size) as [|n] eqn:En; [lia|]. cbn [firstn process].
  unfold row at 1. rewrite (inserted_row_presents _ _ _ _ _ Hinfo Hsb).
  destruct (process_ok (nextId w + 1)
                       (firstn n (eligible showHiden 0 (videos w))))
    as (vs & Evs & _).
  { intros r Hr. apply Hrows'. cbn [videos]. apply in_or_app. left.
    assert (Hin : In r (eligible showHiden 0 (videos w))).
    { rewrite <- (firstn_skipn n (eligible showHiden 0 (videos w))).
      apply in_or_app. now left. }
    now apply eligible_In in Hin as [Hin _]. }
  rewrite Evs. exists vs. split; reflexivity.
Qed.

(** X17. Runs of [createVideo] (given JSON data), [hideVideo] and
    [unhideVideo] keep a table well-formed, from the empty table on: ids
    are positive, distinct and below the auto-increment counter, flags are
    0 or 1 and both structured columns decode.  So after any such run every
    call of [getVideoList] returns, with at most [size] records for a
    size that is not negative. *)
Theorem X17_runs_keep_table_well_formed
        (ops : list Operation) (w : World) :
  store_ok w = true ->
  forallb operation_ok ops = true ->
  store_ok (run ops w) = true
  /\ (forall l, store_ok (run ops (empty_world l)) = true)
  /\ NoDup (map Row.id (videos (run ops w)))
  /\ (forall page size showHiden metadataId,
        exists vs,
          getVideoList (run ops w) page size showHiden metadataId
          = Returned vs
          /\ (0 <= size -> Z.of_nat (List.length vs) <= size)).
Proof.
  intros Hok Hops.
  pose proof (run_keeps_ok ops w Hok Hops) as Hrun.
  split; [exact Hrun|]. split; [|split].
  - intros l. now apply run_keeps_ok.
  - apply distinct_ids_NoDup. apply (store_ok_inv _ Hrun).
  - intros page size showHiden metadataId.
    destruct (getVideoList_returns (run ops w) page size showHiden
                                   metadataId Hrun) as (vs & E & Hall).
    exists vs. split; [exact E|]. intros Hsize.
    rewrite <- (length_map VideoInfo.id), (presented_ids _ _ Hall).
    rewrite length_map. unfold paginate.
    match goal with
    | |- context [firstn ?n ?l] => pose proof (firstn_le_length n l)
    end.
    lia.
Qed.

(** X18. Runs of the three calls never store a second row for a hash: if
    in a well-formed table no row's hash satisfies the duplicate condition
    on an earlier row, the same holds after any run given JSON data. *)
Theorem X18_runs_keep_hashes_distinct
        (ops : list Operation) (w : World) :
  store_ok w = true ->
  hashes_distinct (videos w) = true ->
  forallb operation_ok ops = true ->
  hashes_distinct (videos (run ops w)) = true.
Proof.
  revert w. induction ops as [|o ops IH]; intros w Hok Hd Hops; [exact Hd|].
  cbn [forallb] in Hops. apply andb_prop in Hops as [Ho Hops].
  cbn [run fold_left]. apply IH; [|now apply step_keeps_distinct|exact Hops].
  now apply step_keeps_ok.
Qed.

(** X19. A visibility call changes no page of the listing that includes
    hidden rows: on a well-formed table [getVideoList] with [showHiden]
    returns the same ids, page by page, before and after. *)
Theorem X19_visibility_keeps_full_listing
        (w : World) (op : VisibilityOp) (page size metadataId : Z) :
  store_ok w = true ->
  ids_of (getVideoList (apply_op w op) page size true metadataId)
  = ids_of (getVideoList w page size true metadataId).
Proof.
  intros Hok.
  rewrite !getVideoList_ids by (try apply apply_op_keeps_ok; exact Hok).
  rewrite apply_op_eq. cbn [set_videos videos].
  rewrite eligible_all_update. unfold paginate.
  rewrite skipn_map, firstn_map, map_map.
  apply map_ext. intros r. now destruct (Row.id r =? target op).
Qed.

End Extras.

(** * Facts about the metadata routes *)

Section RouteFacts.
Import Route.

Example parseInt_ex :
  parseInt "42" = Some 42
  /\ parseInt "  -7px" = Some (-7)
  /\ parseInt "+012" = Some 12
  /\ parseInt "0x1F" = Some 31
  /\ parseInt "0x" = None
  /\ parseInt "abc" = None
  /\ parseInt "-" = None
  /\ parseInt "1e3" = Some 1
  /\ parseInt "4.9" = Some 4.
Proof. repeat split; reflexivity. Qed.

Lemma read_digits_chars (d : Decimal.uint) (rest : text) :
  match rest with
  | c :: _ => is_digit c = false
  | [] => True
  end ->
  read_digits (chars_of_uint d ++ rest) = (d, rest).
Proof.
  intros Hend.
  induction d as [|d IH|d IH|d IH|d IH|d IH|d IH|d IH|d IH|d IH|d IH];
    try (simpl; rewrite IH; reflexivity).
  simpl. destruct rest as [|c r]; [reflexivity|].
  now apply read_digits_stop.
Qed.

Lemma read_decimal_print (n : N) (rest : text) :
  match rest with
  | c :: _ => is_digit c = false
  | [] => True
  end ->
  read_decimal (print_N n ++ rest) = Some n.
Proof.
  intros Hend. unfold read_decimal, print_N.
  rewrite (read_digits_chars _ _ Hend). cbn [fst].
  pose proof (DecimalN.Unsigned.of_to n) as Hof.
  destruct (N.to_uint n) eqn:E; try (rewrite Hof; reflexivity).
  destruct n as [|p]; [discriminate E|].
  pose proof (to_uint_head p) as Hh. simpl in E. now rewrite E in Hh.
Qed.

(** The digits of a number other than 0 do not start the radix-16 prefix,
    and those of 0 do only before [x] or [X]. *)
Lemma read_magnitude_print (n : N) (rest : text) :
  match rest with
  | c :: _ =>
      is_digit c = false
      /\ (n = 0%N -> (code c =? 120)%N || (code c =? 88)%N = false)
  | [] => True
  end ->
  read_magnitude (print_N n ++ rest) = Some n.
Proof.
  intros Hend.
  assert (Hdec : read_decimal (print_N n ++ rest) = Some n).
  { apply read_decimal_print. destruct rest; tauto. }
  destruct n as [|p].
  - destruct rest as [|c r]; [reflexivity|].
    destruct Hend as [_ Hx]. specialize (Hx eq_refl).
    change (print_N 0 ++ c :: r) with ("0"%char :: c :: r) in *.
    unfold read_magnitude. rewrite Hx. exact Hdec.
  - unfold print_N in *. pose proof (to_uint_head p) as Hh. simpl N.to_uint in *.
    destruct (Pos.to_uint p) as [|u|u|u|u|u|u|u|u|u|u]; try contradiction;
      cbn [chars_of_uint app] in *;
      (destruct (chars_of_uint u ++ rest) as [|x r];
       [exact Hdec|unfold read_magnitude; exact Hdec]).
Qed.

Lemma trim_start_stop (c : ascii) (s : text) :
  is_str_ws c = false -> trim_start (c :: s) = c :: s.
Proof. intros H. simpl. now rewrite H. Qed.

Lemma digit_facts (c : ascii) :
  is_digit c = true ->
  is_str_ws c = false /\ (code c =? 45)%N = false
  /\ (code c =? 43)%N = false.
Proof.
  destruct c as [[] [] [] [] [] [] [] []]; intros H; try discriminate H;
    repeat split; reflexivity.
Qed.

Lemma parseInt_leading_number (z : Z) (rest : text) :
  match rest with
  | c :: _ =>
      is_digit c = false
      /\ (z = 0 -> (code c =? 120)%N || (code c =? 88)%N = false)
  | [] => True
  end ->
  parseInt (string_of_list_ascii (print_Z z ++ rest)) = Some z.
Proof.
  intros Hend. unfold parseInt. rewrite list_ascii_of_string_of_list_ascii.
  assert (Hmag : forall n, (n = 0%N -> z = 0) ->
                           read_magnitude (print_N n ++ rest) = Some n).
  { intros n Hn. apply read_magnitude_print.
    destruct rest as [|c r]; [exact I|]. destruct Hend as [Hd Hx].
    split; [exact Hd|]. intros E. apply Hx. auto. }
  destruct z as [|p|p].
  - specialize (Hmag 0%N ltac:(auto)).
    change (print_Z 0) with (print_N 0).
    change (print_N 0 ++ rest) with ("0"%char :: rest) in *.
    rewrite trim_start_stop by reflexivity.
    change (code "0"%char =? 45)%N with false.
    change (code "0"%char =? 43)%N with false. cbv iota.
    now rewrite Hmag.
  - specialize (Hmag (Npos p) ltac:(discriminate)).
    unfold print_Z. simpl Z.to_N.
    destruct (print_N_head (Npos p)) as (c & t & E & Hc).
    rewrite E in *. cbn [app] in *.
    destruct (digit_facts c Hc) as (Hws & Hminus & Hplus).
    rewrite trim_start_stop, Hminus, Hplus, Hmag by exact Hws.
    reflexivity.
  - specialize (Hmag (Npos p) ltac:(discriminate)).
    unfold print_Z. cbn [app].
    rewrite trim_start_stop by reflexivity.
    change (code "-"%char =? 45)%N with true. cbv iota.
    now rewrite Hmag.
Qed.

Lemma parseInt_numeral (z : Z) : parseInt (numeral z) = Some z.
Proof.
  pose proof (parseInt_leading_number z [] I) as H.
  now rewrite List.app_nil_r in H.
Qed.

Lemma numeral_nonempty (z : Z) : exists c r, numeral z = String c r.
Proof.
  unfold numeral. cbn [to_string].
  destruct (print_Z_head z) as (c & t & E & _). rewrite E.
  simpl. eauto.
Qed.

Lemma parse_param_given (fallback : Z) (param : option Z) :
  parse_param (option_map numeral param) fallback
  = Some (given fallback param).
Proof.
  destruct param as [z|]; cbn [option_map given parse_param].
  - destruct (numeral_nonempty z) as (c & r & E).
    rewrite E, <- E. apply parseInt_numeral.
  - apply parseInt_numeral.
Qed.

Lemma lt_bound (a : number) (b : Z) :
  lt a b = false -> forall n, a = Some n -> b <= n.
Proof. intros H n ->. apply Z.ltb_ge in H. exact H. Qed.

Lemma gt_bound (a : number) (b : Z) :
  gt a b = false -> forall n, a = Some n -> n <= b.
Proof.
  intros H n ->. cbn [gt] in H. rewrite Z.gtb_ltb in H.
  apply Z.ltb_ge in H. exact H.
Qed.

Section HandlerFacts.
Variable Data : Type.
Variable answer : Call -> Data.

(** X13. With route parameters left out or written as decimal numerals of
    integers below 2^53 in magnitude (those [parseInt] reads without
    rounding), the three handlers answer "Success" with the module's answer
    to one call exactly when 1 <= page and 1 <= size <= 50 (1 <=
    metadataId for [getInfo]), a parameter left out counting as page 1,
    size 20, metadataId 1; otherwise they answer "Param error" and make no
    call. *)
Theorem X13_routes_validate_integers
        (metadataId page size : option Z) (type metaId : string) :
  safe_param metadataId = true ->
  safe_param page = true ->
  safe_param size = true ->
  let i := given 1 metadataId in
  let p := given 1 page in
  let s := given 20 size in
  let params := (option_map numeral page, option_map numeral size) in
  getInfo Data answer (option_map numeral metadataId)
  = (if i <? 1 then (param_error Data, [])
     else success Data answer (getMetadataById (Some i)))
  /\ getList Data answer (fst params) (snd params)
     = (if (p <? 1) || (s <? 1) || (s >? 50) then (param_error Data, [])
        else success Data answer (getMetadataList (Some p) (Some s)))
  /\ getListByMeta Data answer type metaId (fst params) (snd params)
     = (if (p <? 1) || (s <? 1) || (s >? 50) then (param_error Data, [])
        else success Data answer
                     (getMetadataListByMetaId type metaId (Some p) (Some s))).
Proof.
  intros _ _ _ i p s params. subst i p s params.
  unfold getInfo, getList, getListByMeta. cbn [fst snd].
  rewrite !parse_param_given. auto.
Qed.

(** X14. Whatever the route parameters, a handler either answers "Param
    error" without calling the metadata module, or answers "Success" with
    the module's answer to exactly one call; and in that call a page (or
    metadataId) that is a number is at least 1 and a size that is a number
    lies in 1..50. *)
Theorem X14_routes_forward_in_bounds
        (metadataId page size : option string) (type metaId : string) :
  (getInfo Data answer metadataId = (param_error Data, [])
   \/ exists i,
       getInfo Data answer metadataId
       = success Data answer (getMetadataById i)
       /\ (forall n, i = Some n -> 1 <= n))
  /\ (getList Data answer page size = (param_error Data, [])
      \/ exists p s,
          getList Data answer page size
          = success Data answer (getMetadataList p s)
          /\ (forall n, p = Some n -> 1 <= n)
          /\ (forall n, s = Some n -> 1 <= n <= 50))
  /\ (getListByMeta Data answer type metaId page size
      = (param_error Data, [])
      \/ exists p s,
          getListByMeta Data answer type metaId page size
          = success Data answer (getMetadataListByMetaId type metaId p s)
          /\ (forall n, p = Some n -> 1 <= n)
          /\ (forall n, s = Some n -> 1 <= n <= 50)).
Proof.
  unfold getInfo, getList, getListByMeta.
  split; [|split].
  - destruct (lt (parse_param metadataId 1) 1) eqn:E; [now left|right].
    eexists. split; [reflexivity|]. now apply lt_bound.
  - destruct (lt (parse_param page 1) 1) eqn:Ep; [now left|].
    destruct (lt (parse_param size 20) 1) eqn:Es; [now left|].
    destruct (gt (parse_param size 20) 50) eqn:Eg; [now left|right].
    do 2 eexists. split; [reflexivity|]. split; [now apply lt_bound|].
    intros n Hn. split; [now apply (lt_bound _ _ Es)|
                         now apply (gt_bound _ _ Eg)].
  - destruct (lt (parse_param page 1) 1) eqn:Ep; [now left|].
    destruct (lt (parse_param size 20) 1) eqn:Es; [now left|].
    destruct (gt (parse_param size 20) 50) eqn:Eg; [now left|right].
    do 2 eexists. split; [reflexivity|]. split; [now apply lt_bound|].
    intros n Hn. split; [now apply (lt_bound _ _ Es)|
                         now apply (gt_bound _ _ Eg)].
Qed.

(** X15. A page parameter that starts with a character that is no white
    space, no sign and no digit parses to NaN, and NaN passes the bounds
    test: with a size in 1..50 the request is answered "Success" and the
    module is called with NaN for the page. *)
Theorem X15_non_numeric_page_passes
        (c : ascii) (rest : string) (size : Z) :
  is_str_ws c = false ->
  is_digit c = false ->
  (code c =? 45)%N || (code c =? 43)%N = false ->
  1 <= size <= 50 ->
  parseInt (String c rest) = None
  /\ getList Data answer (Some (String c rest)) (Some (numeral size))
     = success Data answer (getMetadataList None (Some size)).
Proof.
  intros Hws Hdigit Hsign Hsize.
  apply orb_false_elim in Hsign as [Hminus Hplus].
  assert (Hnan : parseInt (String c rest) = None).
  { unfold parseInt. cbn [list_ascii_of_string].
    rewrite trim_start_stop, Hminus, Hplus by exact Hws.
    assert (Hdec : read_decimal (c :: list_ascii_of_string rest) = None).
    { unfold read_decimal. now rewrite read_digits_stop. }
    assert (Hzero : (code c =? 48)%N = false).
    { unfold is_digit in Hdigit. apply N.eqb_neq. intros E.
      rewrite E in Hdigit. discriminate Hdigit. }
    unfold read_magnitude.
    destruct (list_ascii_of_string rest) as [|x r];
      rewrite ?Hzero; cbn [andb]; now rewrite Hdec. }
  split; [exact Hnan|].
  assert (Hp : parse_param (Some (String c rest)) 1 = None) by exact Hnan.
  pose proof (parse_param_given 20 (Some size)) as Hs.
  cbn [option_map given] in Hs.
  unfold getList. rewrite Hp, Hs. cbn [lt gt orb].
  assert (E1 : (size <? 1) = false) by (apply Z.ltb_ge; lia).
  assert (E2 : (size >? 50) = false)
    by (rewrite Z.gtb_ltb; apply Z.ltb_ge; lia).
  now rewrite E1, E2.
Qed.

(** X16. A parameter is read up to its first character that is no digit:
    text after the decimal numeral of an integer below 2^53 in magnitude is
    ignored (after 0, text that does not start with [x] or [X], which would
    announce radix 16), so the handlers treat such a parameter as the
    integer alone. *)
Theorem X16_routes_ignore_trailing_text
        (z : Z) (c : ascii) (rest : string) (size : option string) :
  safe_integer z = true ->
  is_digit c = false ->
  (z = 0 -> (code c =? 120)%N || (code c =? 88)%N = false) ->
  parseInt (numeral z ++ String c rest)%string = Some z
  /\ getList Data answer (Some (numeral z ++ String c rest)%string) size
     = getList Data answer (Some (numeral z)) size
  /\ getInfo Data answer (Some (numeral z ++ String c rest)%string)
     = getInfo Data answer (Some (numeral z)).
Proof.
  intros _ Hdigit Hx.
  assert (Hparse : parseInt (numeral z ++ String c rest)%string = Some z).
  { pose proof (parseInt_leading_number
                  z (c :: list_ascii_of_string rest) (conj Hdigit Hx)) as H.
    unfold numeral. cbn [to_string].
    rewrite <- H. f_equal.
    rewrite <- (string_of_list_ascii_of_string
                  (string_of_list_ascii (print_Z z) ++ String c rest)%string).
    f_equal.
    rewrite <- (list_ascii_of_string_of_list_ascii (print_Z z)) at 2.
    generalize (string_of_list_ascii (print_Z z)). intros t.
    induction t as [|a t IH]; [reflexivity|]. simpl. now rewrite IH. }
  assert (Hparam : forall d,
             parse_param (Some (numeral z ++ String c rest)%string) d
             = parse_param (Some (numeral z)) d).
  { intros d. destruct (numeral_nonempty z) as (a & r & E).
    unfold parse_param. rewrite E. cbn [String.append].
    rewrite <- E.
    change (String a (r ++ String c rest)%string)
      with (String a r ++ String c rest)%string.
    rewrite <- E. now rewrite Hparse, parseInt_numeral. }
  split; [exact Hparse|].
  unfold getList, getInfo. now rewrite !Hparam.
Qed.

End HandlerFacts.
End RouteFacts.

(** * The further properties at the sample catalogue *)

(** In the damaged table the page that holds row 2 fails and the pages
    around it are served. *)
Example damaged_pages :
  ids_of (getVideoList damaged_world 1 1 true 0) = [3]
  /\ getVideoList damaged_world 2 1 true 0 = Thrown SyntaxError
  /\ ids_of (getVideoList damaged_world 3 1 true 0) = [1]
  /\ getVideoList damaged_world 1 20 true 0 = Thrown SyntaxError.
Proof. vm_compute. repeat split; reflexivity. Qed.

Lemma X1_witness :
  store_ok sample_world = true
  /\ (getVideoIdByInfoFileId sample_world 11 = 0
      <-> forall r, In r (videos sample_world) -> Row.infoFileId r <> 11)
  /\ (getVideoIdByInfoFileId sample_world 11 <> 0 ->
      exists r,
        find (fun r => Row.infoFileId r =? 11) (videos sample_world) = Some r
        /\ In r (videos sample_world)
        /\ Row.infoFileId r = 11
        /\ getVideoIdByInfoFileId sample_world 11 = Row.id r).
Proof.
  split; [vm_compute; reflexivity|].
  apply (X1_lookup_by_info_file sample_world 11).
  vm_compute. reflexivity.
Defined.



Lemma X4_witness :
  let w := sample_world in
  let info := sample_info "NEW" "100" "h9" in
  let created := createVideo w info sample_files 4000 in
  store_ok w = true
  /\ json_ok (JObj info) = true
  /\ json_ok (FileIds.storyboardId sample_files) = true
  /\ assoc "hash" info = Some (JStr "h9")
  /\ sql_equal (JStr "h9") (JStr "h9") = true
  /\ fst created = Returned (Some 4)
  /\ isExistByHash (snd created) (Some (JStr "h9")) = Returned true
  /\ existsb (fun r => (Row.id r =? 4) && hash_matches (JStr "h9") r)
             (videos (snd created)) = true.
Proof.
  intros w info created.
  split; [vm_compute; reflexivity|].
  split; [reflexivity|]. split; [reflexivity|]. split; [reflexivity|].
  split; [reflexivity|]. split; [vm_compute; reflexivity|].
  apply (X4_exists_after_create w info sample_files 4000 (JStr "h9") 4);
    vm_compute; reflexivity.
Defined.


Lemma X6_witness :
  let w := sample_world in
  let info := sample_info "NEW" "100" "h9" in
  let created := createVideo w info sample_files 4000 in
  store_ok w = true
  /\ (List.length (videos w) < List.length (videos (snd created)))%nat
  /\ exists h metaId,
      assoc "hash" info = Some h
      /\ isExistByHash w (Some h) = Returned false
      /\ fst (getMetadataId (JAVID info) (linker w)) = metaId
      /\ metaId <> 0
      /\ fst created = Returned (Some (nextId w))
      /\ videos (snd created)
         = (videos w
            ++ [inserted_row (nextId w) metaId info sample_files 4000])%list
      /\ (forall r, In r (videos w) -> Row.id r < nextId w)
      /\ nextId (snd created) = nextId w + 1.
Proof.
  intros w info created.
  split; [vm_compute; reflexivity|].
  split; [vm_compute; lia|].
  apply (X6_insert_only_when_absent w info sample_files 4000).
  - vm_compute; reflexivity.
  - vm_compute; lia.
Defined.

Lemma X10_witness :
  target (Hide 1) <> target (Unhide 2)
  /\ apply_op (apply_op sample_world (Hide 1)) (Unhide 2)
     = apply_op (apply_op sample_world (Unhide 2)) (Hide 1).
Proof.
  split; [simpl; lia|].
  apply (X10_visibility_commutes sample_world (Hide 1) (Unhide 2)).
  simpl; lia.
Defined.

Lemma X12_witness :
  let w := sample_world in
  let info := sample_info "NEW" "100" "h9" in
  let created := createVideo w info sample_files 4000 in
  store_ok w = true
  /\ json_ok (JObj info) = true
  /\ json_ok (FileIds.storyboardId sample_files) = true
  /\ (List.length (videos w) < List.length (videos (snd created)))%nat
  /\ 1 <= 2
  /\ exists rest,
      fst created = Returned (Some (nextId w))
      /\ getVideoList (snd created) 1 2 false 0
         = Returned
             (VideoInfo.mk (nextId w)
                           (fst (getMetadataId (JAVID info) (linker w)))
                           (FileIds.videoId sample_files) false
                           (FileIds.metaId sample_files) (JObj info)
                           (FileIds.storyboardId sample_files) 4000 :: rest).
Proof.
  intros w info created.
  split; [vm_compute; reflexivity|].
  split; [reflexivity|]. split; [reflexivity|].
  split; [vm_compute; lia|]. split; [lia|].
  apply (X12_newest_first w info sample_files 4000 2 false).
  - vm_compute; reflexivity.
  - reflexivity.
  - reflexivity.
  - vm_compute; lia.
  - lia.
Defined.

Lemma X17_witness :
  let w := sample_world in
  let ops := [Create (sample_info "NEW" "100" "h9") sample_files 4000;
              Visibility (Hide 1);
              Create (sample_info "OTHER" "200" "h9") sample_files 5000;
              Visibility (Unhide 7)] in
  store_ok w = true
  /\ forallb operation_ok ops = true
  /\ store_ok (run ops w) = true
  /\ (forall l, store_ok (run ops (empty_world l)) = true)
  /\ NoDup (map Row.id (videos (run ops w)))
  /\ (forall page size showHiden metadataId,
        exists vs,
          getVideoList (run ops w) page size showHiden metadataId
          = Returned vs
          /\ (0 <= size -> Z.of_nat (List.length vs) <= size)).
Proof.
  intros w ops.
  split; [vm_compute; reflexivity|].
  split; [vm_compute; reflexivity|].
  apply (X17_runs_keep_table_well_formed ops w); vm_compute; reflexivity.
Defined.

Lemma X18_witness :
  let w := sample_world in
  let ops := [Create (sample_info "NEW" "100" "h9") sample_files 4000;
              Visibility (Hide 1);
              Create (sample_info "OTHER" "200" "h9") sample_files 5000] in
  store_ok w = true
  /\ hashes_distinct (videos w) = true
  /\ forallb operation_ok ops = true
  /\ hashes_distinct (videos (run ops w)) = true.
Proof.
  intros w ops.
  split; [vm_compute; reflexivity|].
  split; [vm_compute; reflexivity|].
  split; [vm_compute; reflexivity|].
  apply (X18_runs_keep_hashes_distinct ops w); vm_compute; reflexivity.
Defined.

Lemma X19_witness :
  store_ok sample_world = true
  /\ ids_of (getVideoList (apply_op sample_world (Hide 2)) 1 2 true 0)
     = ids_of (getVideoList sample_world 1 2 true 0).
Proof.
  split; [vm_compute; reflexivity|].
  apply (X19_visibility_keeps_full_listing sample_world (Hide 2) 1 2 0).
  vm_compute; reflexivity.
Defined.

Lemma X13_witness :
  let answer (call : Route.Call) := call in
  let page := Some 3 in
  let size := Some 51 in
  Route.safe_param (Some 0) = true
  /\ Route.safe_param page = true
  /\ Route.safe_param size = true
  /\ Route.getInfo Route.Call answer (option_map Route.numeral (Some 0))
     = (Route.param_error Route.Call, [])
  /\ Route.getList Route.Call answer (option_map Route.numeral page)
                   (option_map Route.numeral size)
     = (Route.param_error Route.Call, [])
  /\ Route.getList Route.Call answer (option_map Route.numeral page) None
     = Route.success Route.Call answer
                     (Route.getMetadataList (Some 3) (Some 20)).
Proof.
  intros answer page size.
  split; [reflexivity|]. split; [reflexivity|]. split; [reflexivity|].
  split; [|split].
  - apply (X13_routes_validate_integers
             Route.Call answer (Some 0) page size EmptyString EmptyString);
      reflexivity.
  - apply (X13_routes_validate_integers
             Route.Call answer (Some 0) page size EmptyString EmptyString);
      reflexivity.
  - apply (X13_routes_validate_integers
             Route.Call answer (Some 0) page None EmptyString EmptyString);
      reflexivity.
Defined.

Lemma X15_witness :
  let answer (call : Route.Call) := call in
  Route.is_str_ws "a" = false
  /\ is_digit "a" = false
  /\ (code "a" =? 45)%N || (code "a" =? 43)%N = false
  /\ 1 <= 20 <= 50
  /\ Route.parseInt "abc" = None
  /\ Route.getList Route.Call answer (Some "abc") (Some (Route.numeral 20))
     = Route.success Route.Call answer (Route.getMetadataList None (Some 20)).
Proof.
  intros answer.
  split; [reflexivity|]. split; [reflexivity|]. split; [reflexivity|].
  split; [lia|].
  apply (X15_non_numeric_page_passes Route.Call answer "a" "bc" 20);
    (reflexivity || lia).
Defined.

Lemma X16_witness :
  let answer (call : Route.Call) := call in
  let param := (Route.numeral 2 ++ String "p" "x")%string in
  Route.safe_integer 2 = true
  /\ is_digit "p" = false
  /\ (2 = 0 -> (code "p" =? 120)%N || (code "p" =? 88)%N = false)
  /\ Route.parseInt param = Some 2
  /\ Route.getList Route.Call answer (Some param) None
     = Route.getList Route.Call answer (Some (Route.numeral 2)) None
  /\ Route.getInfo Route.Call answer (Some param)
     = Route.getInfo Route.Call answer (Some (Route.numeral 2)).
Proof.
  intros answer param.
  split; [reflexivity|]. split; [reflexivity|]. split; [lia|].
  apply (X16_routes_ignore_trailing_text Route.Call answer 2 "p" "x" None);
    [reflexivity|reflexivity|lia].
Defined.
